(** * Buscador de proveedores: column aliasing and text matching

    A shallow embedding of [app.py]: the column normaliser and aliaser
    ([_normalize_col], [COL_ALIASES], [standardize_columns]), the text
    normaliser, tokenizer and row matcher ([normalize_text],
    [tokenize_query], [match_row]) and the data flow of the page script
    (terms, results, status line, CSV download).

    Python [str] values are sequences of Unicode code points and are
    modelled as [list N].  The Unicode character database behind
    [str.strip], [str.lower], [str.casefold] and the [unicodedata] module is
    not part of the program: it is a record [UnicodeData] the functions are
    parameterised by, with one concrete instance [ucd_es] (Basic Latin and
    the Spanish letters) for the closed examples. *)

From Stdlib Require Import String Ascii List NArith Bool Arith Lia.
Import ListNotations.

Set Implicit Arguments.

(** ** Python strings *)

Definition pystr := list N.

(** An ASCII literal as a Python string. *)
Definition py (s : string) : pystr := map N_of_ascii (list_ascii_of_string s).

Fixpoint str_eqb (a b : pystr) : bool :=
  match a, b with
  | [], [] => true
  | x :: a', y :: b' => N.eqb x y && str_eqb a' b'
  | _, _ => false
  end.

(** [s.startswith(old)]. *)
Fixpoint starts_with (old s : pystr) : bool :=
  match old, s with
  | [], _ => true
  | o :: old', c :: s' => N.eqb o c && starts_with old' s'
  | _ :: _, [] => false
  end.

(** [t in p] on two strings: [t] occurs in [p] as a contiguous substring. *)
Fixpoint contains (p t : pystr) : bool :=
  starts_with t p ||
  match p with
  | [] => false
  | _ :: p' => contains p' t
  end.

(** [s.replace(old, new)]: a left-to-right scan replacing non-overlapping
    occurrences.  [skip] counts the characters of a match still to be
    dropped. *)
Fixpoint replace_from (old new : pystr) (skip : nat) (s : pystr) : pystr :=
  match s with
  | [] => []
  | c :: rest =>
      match skip with
      | S k => replace_from old new k rest
      | O =>
          if starts_with old s
          then new ++ replace_from old new (length old - 1) rest
          else c :: replace_from old new 0 rest
      end
  end.

Definition replace (old new s : pystr) : pystr :=
  match old with
  | [] => new ++ flat_map (fun c => c :: new) s
  | _ :: _ => replace_from old new 0 s
  end.

(** [re.split] on a character class repeated one or more times: the pieces
    between maximal runs of separators, empty pieces at both ends kept. *)
Fixpoint split_from (is_sep : N -> bool) (in_sep : bool) (piece_rev : pystr)
  (s : pystr) : list pystr :=
  match s with
  | [] => [rev piece_rev]
  | c :: rest =>
      if is_sep c
      then if in_sep
           then split_from is_sep true [] rest
           else rev piece_rev :: split_from is_sep true [] rest
      else split_from is_sep false (c :: piece_rev) rest
  end.

Definition re_split (is_sep : N -> bool) (s : pystr) : list pystr :=
  split_from is_sep false [] s.

(** the truth value of a string or a list *)
Definition nonempty {A} (l : list A) : bool :=
  match l with
  | [] => false
  | _ :: _ => true
  end.

(** ** The Unicode character database *)

Record UnicodeData := {
  (** [str.isspace] of one code point; [str.strip] and the regular
      expression class [\s] use it. *)
  isspace : N -> bool;
  (** full compatibility decomposition of one code point *)
  decomposition : N -> list N;
  (** [unicodedata.combining]: the canonical combining class *)
  combining : N -> N;
  (** full case folding of one code point *)
  fold : N -> list N;
  (** [str.lower] (context sensitive: final sigma) *)
  lower : pystr -> pystr
}.

Section Strings.
Variable U : UnicodeData.

Fixpoint lstrip (s : pystr) : pystr :=
  match s with
  | [] => []
  | c :: rest => if isspace U c then lstrip rest else s
  end.

Definition rstrip (s : pystr) : pystr := rev (lstrip (rev s)).

(** [s.strip()] *)
Definition strip (s : pystr) : pystr := rstrip (lstrip s).

(** Canonical ordering: a character of non-zero combining class moves left
    past characters of a greater class. *)
Fixpoint reorder_insert (c : N) (out_rev : list N) : list N :=
  match out_rev with
  | [] => [c]
  | p :: rest =>
      if negb (combining U c =? 0)%N && (combining U c <? combining U p)%N
      then p :: reorder_insert c rest
      else c :: out_rev
  end.

Definition canonical_order (s : pystr) : pystr :=
  rev (fold_left (fun out_rev c => reorder_insert c out_rev) s []).

(** [unicodedata.normalize("NFKD", s)] *)
Definition nfkd (s : pystr) : pystr :=
  canonical_order (flat_map (decomposition U) s).

(** [s.casefold()] *)
Definition casefold (s : pystr) : pystr := flat_map (fold U) s.
End Strings.

(** The rows of the database for Basic Latin and the Spanish letters
    (a e i o u with acute, u with diaeresis, n with tilde, both cases), and
    the whitespace code points.  The closed examples below only use
    characters of this fragment. *)
Definition es_upper : list (N * N) :=
  [(193, 225); (201, 233); (205, 237); (209, 241); (211, 243); (218, 250);
   (220, 252)]%N.

Definition es_decomposition : list (N * list N) :=
  [(193, [65; 769]); (201, [69; 769]); (205, [73; 769]); (209, [78; 771]);
   (211, [79; 769]); (218, [85; 769]); (220, [85; 776]);
   (225, [97; 769]); (233, [101; 769]); (237, [105; 769]); (241, [110; 771]);
   (243, [111; 769]); (250, [117; 769]); (252, [117; 776])]%N.

Fixpoint assoc_N {A} (k : N) (l : list (N * A)) : option A :=
  match l with
  | [] => None
  | (k', a) :: l' => if N.eqb k k' then Some a else assoc_N k l'
  end.

Definition es_isspace (c : N) : bool :=
  ((9 <=? c) && (c <=? 13) || (28 <=? c) && (c <=? 32) || (c =? 133)
   || (c =? 160) || (c =? 5760) || (8192 <=? c) && (c <=? 8202)
   || (c =? 8232) || (c =? 8233) || (c =? 8239) || (c =? 8287)
   || (c =? 12288))%N.

Definition es_lower_cp (c : N) : N :=
  if ((65 <=? c) && (c <=? 90))%N then (c + 32)%N
  else match assoc_N c es_upper with Some l => l | None => c end.

Definition ucd_es : UnicodeData :=
  {| isspace := es_isspace;
     decomposition := fun c =>
       match assoc_N c es_decomposition with Some d => d | None => [c] end;
     combining := fun c =>
       if ((c =? 769) || (c =? 771) || (c =? 776))%N then 230%N else 0%N;
     fold := fun c => [es_lower_cp c];
     lower := map es_lower_cp |}.

(** ** Values, errors and tables *)

(** A Python value as the program sees it: [None], the missing-cell marker
    (a float NaN), a [str], or any other object, of which only its truth
    value and its [str()] rendering matter. *)
Inductive value :=
| VNone
| VNaN
| VStr (s : pystr)
| VObj (truthy : bool) (repr : pystr).

(** [str(v)] *)
Definition str_of (v : value) : pystr :=
  match v with
  | VNone => py "None"
  | VNaN => py "nan"
  | VStr s => s
  | VObj _ r => r
  end.

(** the truth value of [v], as [or] and [if] test it *)
Definition truthy_value (v : value) : bool :=
  match v with
  | VNone => false
  | VNaN => true
  | VStr [] => false
  | VStr (_ :: _) => true
  | VObj t _ => t
  end.

(** A column header: a [str], or some other object (a number, a date), of
    which only its identity and its [str()] rendering matter. *)
Inductive label :=
| LStr (s : pystr)
| LOther (id : N) (repr : pystr).

Definition label_eqb (a b : label) : bool :=
  match a, b with
  | LStr s, LStr t => str_eqb s t
  | LOther i r, LOther j t => N.eqb i j && str_eqb r t
  | _, _ => false
  end.

Inductive exn := AttributeError | KeyError | ValueError | UnicodeEncodeError.

Inductive result (A : Type) :=
| Ok (a : A)
| Raise (e : exn).
Arguments Ok {A} a.
Arguments Raise {A} e.

Definition bind {A B} (r : result A) (k : A -> result B) : result B :=
  match r with
  | Ok a => k a
  | Raise e => Raise e
  end.

Notation "x <- r ;; k" := (bind r (fun x => k))
  (at level 61, r at next level, right associativity).

(** A [for] loop whose body may raise. *)
Fixpoint for_each {A S} (xs : list A) (body : S -> A -> result S) (s : S)
  : result S :=
  match xs with
  | [] => Ok s
  | x :: xs' => s' <- body s x ;; for_each xs' body s'
  end.

(** A [pandas.DataFrame]: the column index and the rows, each row holding
    one cell per column. *)
Record DataFrame := {
  columns : list label;
  rows : list (list value)
}.

(** every row has one cell per column *)
Definition rectangular (df : DataFrame) : Prop :=
  Forall (fun r => length r = length (columns df)) (rows df).

(** [df.empty]: some axis has length zero *)
Definition empty (df : DataFrame) : bool :=
  match columns df, rows df with
  | [], _ => true
  | _, [] => true
  | _, _ => false
  end.

(** [pd.DataFrame(columns=names)] *)
Definition empty_frame (names : list pystr) : DataFrame :=
  {| columns := map LStr names; rows := [] |}.

(** ** Python dictionaries

    Insertion-ordered; assigning to a key that is present keeps its place
    and replaces its value. *)
Section Dict.
Variables K V : Type.
Variable eqb : K -> K -> bool.

Fixpoint dict_get (k : K) (d : list (K * V)) : option V :=
  match d with
  | [] => None
  | (k', v) :: d' => if eqb k k' then Some v else dict_get k d'
  end.

Fixpoint dict_set (k : K) (v : V) (d : list (K * V)) : list (K * V) :=
  match d with
  | [] => [(k, v)]
  | (k', v') :: d' =>
      if eqb k k' then (k', v) :: d' else (k', v') :: dict_set k v d'
  end.
End Dict.

(** ** Table primitives *)

Fixpoint positions_from (c : label) (cols : list label) (i : nat) : list nat :=
  match cols with
  | [] => []
  | c' :: cols' =>
      if label_eqb c c' then i :: positions_from c cols' (S i)
      else positions_from c cols' (S i)
  end.

(** What [df[c]] selects: one column (a Series), or, when the label occurs
    more than once, a frame of all the columns carrying it. *)
Inductive selection :=
| Series (i : nat)
| Frame (positions : list nat).

Definition getitem (df : DataFrame) (c : label) : result selection :=
  match positions_from c (columns df) 0 with
  | [] => Raise KeyError
  | [i] => Ok (Series i)
  | ps => Ok (Frame ps)
  end.

Fixpoint update_at {A} (i : nat) (f : A -> A) (l : list A) : list A :=
  match l, i with
  | [], _ => []
  | x :: l', O => f x :: l'
  | x :: l', S j => x :: update_at j f l'
  end.

(** [c in df.columns] *)
Definition has_column (df : DataFrame) (c : label) : bool :=
  existsb (label_eqb c) (columns df).

(** [df[name] = v] for a label that is not yet a column *)
Definition add_column (df : DataFrame) (name : label) (v : value) : DataFrame :=
  {| columns := columns df ++ [name];
     rows := map (fun r => r ++ [v]) (rows df) |}.

(** the header [df.rename(columns=mapping)] gives to column [c] *)
Definition new_label (mapping : list (label * pystr)) (c : label) : label :=
  match dict_get label_eqb c mapping with
  | Some t => LStr t
  | None => c
  end.

(** [df.rename(columns=mapping)] *)
Definition rename (mapping : list (label * pystr)) (df : DataFrame)
  : DataFrame :=
  {| columns := map (new_label mapping) (columns df);
     rows := rows df |}.

(** the loop that gives every needed name absent from [df2.columns] a column
    of empty strings *)
Definition ensure_columns (needed : list pystr) (df2 : DataFrame) : DataFrame :=
  fold_left
    (fun df2 name =>
       if has_column df2 (LStr name) then df2
       else add_column df2 (LStr name) (VStr []))
    needed df2.

(** the headers that loop appends to [cols] *)
Fixpoint missing (needed : list pystr) (cols : list label) : list label :=
  match needed with
  | [] => []
  | n :: needed' =>
      if existsb (label_eqb (LStr n)) cols then missing needed' cols
      else LStr n :: missing needed' (cols ++ [LStr n])
  end.

(** ** Utilidades *)

Definition COL_ALIASES : list (pystr * list pystr) :=
  [ (py "nombre",
      [py "nombre"; py "proveedor"; py "razon social";
       py "razon social / nombre"]);
    (py "web",
      [py "web"; py "sitio web"; py "pagina"; py "pagina web"; py "website";
       py "url"]);
    (py "telefono",
      [py "telefono"; py "tel"; py "whatsapp"; py "wa";
       py "telefono/whatsapp"]);
    (py "email",
      [py "email"; py "mail"; py "e-mail"; py "correo";
       py "correo electronico"]);
    (py "pais", [py "pais"]);
    (py "provincia / estado",
      [py "provincia / estado"; py "provincia"; py "estado";
       py "provincia-estado"; py "provincia/estado"]);
    (py "ciudad", [py "ciudad"; py "localidad"]);
    (py "direccion", [py "direccion"; py "direc"; py "domicilio"]);
    (py "productos",
      [py "productos"; py "producto"; py "items"; py "categorias";
       py "categoria"]) ].

Definition DISPLAY_ORDER : list pystr :=
  [py "nombre"; py "web"; py "telefono"; py "email"; py "pais";
   py "provincia / estado"; py "ciudad"; py "direccion"].

(** [[*DISPLAY_ORDER, "productos"]] *)
Definition CANONICAL : list pystr := DISPLAY_ORDER ++ [py "productos"].

Section Utilidades.
Variable U : UnicodeData.

Definition _normalize_col (col : label) : pystr :=
  match col with
  | LOther _ _ => []
  | LStr col =>
      let c := lower U (strip U col) in
      let c := replace [225%N] (py "a") c in
      let c := replace [233%N] (py "e") c in
      let c := replace [237%N] (py "i") c in
      let c := replace [243%N] (py "o") c in
      let c := replace [250%N] (py "u") c in
      let c := replace (py "/") (py " /") c in
      let c := replace (py "  ") (py " ") c in
      c
  end.

(** column [c] normalises to the key [k] *)
Definition normalizes_to (k : pystr) (c : label) : bool :=
  str_eqb k (_normalize_col c).

(** [{_normalize_col(c): c for c in df.columns}] *)
Definition cols_norm (cols : list label) : list (pystr * label) :=
  fold_left (fun d c => dict_set str_eqb (_normalize_col c) c d) cols [].

(** the inner loop: the column of the first variant that is a key *)
Fixpoint find_variant (cn : list (pystr * label)) (variants : list pystr)
  : option label :=
  match variants with
  | [] => None
  | v :: variants' =>
      match dict_get str_eqb v cn with
      | Some c => Some c
      | None => find_variant cn variants'
      end
  end.

(** the outer loop: [mapping[found] = target] *)
Definition build_mapping (aliases : list (pystr * list pystr))
  (cn : list (pystr * label)) : list (label * pystr) :=
  fold_left
    (fun mapping '(target, variants) =>
       match find_variant cn variants with
       | Some found => dict_set label_eqb found target mapping
       | None => mapping
       end)
    aliases [].

(** the headers after [df.rename(columns=mapping)] *)
Definition renamed (aliases : list (pystr * list pystr)) (cols : list label)
  : list label :=
  map (new_label (build_mapping aliases (cols_norm cols))) cols.

(** one cell through [fillna] with the empty string, [astype(str)] and
    [str.strip()] *)
Definition clean_cell (v : value) : value :=
  let v := match v with VNone | VNaN => VStr [] | _ => v end in
  VStr (strip U (str_of v)).

(** the body of the clean-up loop: [df2[c] = df2[c]....str.strip()];
    a frame has no [.str] accessor *)
Definition clean_column (df2 : DataFrame) (c : label) : result DataFrame :=
  sel <- getitem df2 c ;;
  match sel with
  | Frame _ => Raise AttributeError
  | Series i =>
      Ok {| columns := columns df2;
            rows := map (update_at i clean_cell) (rows df2) |}
  end.

(** [standardize_columns], with the iteration order of the alias sets
    ([aliases]) and of [set(DISPLAY_ORDER + ["productos"])] ([needed])
    made explicit. *)
Definition standardize_columns_with (aliases : list (pystr * list pystr))
  (needed : list pystr) (df : option DataFrame) : result DataFrame :=
  match df with
  | None => Ok (empty_frame CANONICAL)
  | Some df =>
      if empty df then Ok (empty_frame CANONICAL)
      else
        let cn := cols_norm (columns df) in
        let mapping := build_mapping aliases cn in
        let df2 := rename mapping df in
        let df2 := ensure_columns needed df2 in
        for_each (columns df2) clean_column df2
  end.

(** The set literals are taken in the order they are written. *)
Definition standardize_columns (df : option DataFrame) : result DataFrame :=
  standardize_columns_with COL_ALIASES CANONICAL df.

Definition normalize_text (s : value) : pystr :=
  let s :=
    match s with
    | VStr s => s
    | VNone => []
    | other => str_of other
    end in
  let s := strip U s in
  let s := nfkd U s in
  let s := filter (fun ch => (combining U ch =? 0)%N) s in
  casefold U s.

(** the separator class of the pattern: whitespace, comma, semicolon and
    U+200B *)
Definition is_separator (c : N) : bool :=
  (isspace U c || (c =? 44) || (c =? 59) || (c =? 8203))%N.

Definition tokenize_query (q : pystr) : list pystr :=
  let q := normalize_text (VStr q) in
  let parts := re_split is_separator q in
  filter nonempty parts.

Definition match_row (productos_text : value) (terms : list pystr) : bool :=
  let p :=
    normalize_text
      (if truthy_value productos_text then productos_text else VStr []) in
  forallb (fun t => contains p t) terms.
End Utilidades.

(** ** The page script: search, status line and CSV download *)

Definition bytes := list Byte.byte.

Definition byte_of (n : N) : Byte.byte :=
  match Byte.of_N n with
  | Some b => b
  | None => Byte.x00
  end.

(** UTF-8 of one code point; surrogates cannot be encoded. *)
Definition utf8_char (c : N) : result bytes :=
  (if c <? 128 then Ok [byte_of c]
   else if c <? 2048 then
     Ok [byte_of (192 + c / 64); byte_of (128 + c mod 64)]
   else if c <? 65536 then
     if (55296 <=? c) && (c <=? 57343) then Raise UnicodeEncodeError
     else Ok [byte_of (224 + c / 4096); byte_of (128 + (c / 64) mod 64);
              byte_of (128 + c mod 64)]
   else if c <? 1114112 then
     Ok [byte_of (240 + c / 262144); byte_of (128 + (c / 4096) mod 64);
         byte_of (128 + (c / 64) mod 64); byte_of (128 + c mod 64)]
   else Raise UnicodeEncodeError)%N.

Fixpoint utf8_encode (s : pystr) : result bytes :=
  match s with
  | [] => Ok []
  | c :: s' => b <- utf8_char c ;; bs <- utf8_encode s' ;; Ok (b ++ bs)
  end.

Definition BOM_UTF8 : bytes := [Byte.xef; Byte.xbb; Byte.xbf].

(** [s.encode("utf-8-sig")] *)
Definition encode_utf8_sig (s : pystr) : result bytes :=
  bs <- utf8_encode s ;; Ok (BOM_UTF8 ++ bs).

(** A field of the CSV writer, minimal quoting: quoted when it holds the
    delimiter, the quote character or a line break, quotes doubled. *)
Definition csv_special (c : N) : bool :=
  ((c =? 44) || (c =? 34) || (c =? 13) || (c =? 10))%N.

Definition csv_field (s : pystr) : pystr :=
  if existsb csv_special s
  then [34%N] ++ flat_map (fun c => if (c =? 34)%N then [c; c] else [c]) s
       ++ [34%N]
  else s.

Fixpoint join (sep : pystr) (fields : list pystr) : pystr :=
  match fields with
  | [] => []
  | [f] => f
  | f :: fields' => f ++ sep ++ join sep fields'
  end.

Definition csv_line (fields : list pystr) : pystr :=
  join (py ",") (map csv_field fields) ++ [10%N].

Definition label_text (c : label) : pystr :=
  match c with
  | LStr s => s
  | LOther _ r => r
  end.

(** the text of a cell in the file: missing values are written empty *)
Definition cell_text (v : value) : pystr :=
  match v with
  | VNone | VNaN => []
  | _ => str_of v
  end.

(** [df.to_csv(index=False)]: the header line, then one line per row *)
Definition to_csv (df : DataFrame) : pystr :=
  csv_line (map label_text (columns df))
  ++ flat_map (fun r => csv_line (map cell_text r)) (rows df).

(** [df.loc[mask, names]]: the rows the mask keeps, restricted to the
    columns carrying one of [names], in the order of [names]. *)
Fixpoint loc_positions (cols : list label) (names : list pystr)
  : result (list nat) :=
  match names with
  | [] => Ok []
  | n :: names' =>
      match positions_from (LStr n) cols 0 with
      | [] => Raise KeyError
      | ps => rest <- loc_positions cols names' ;; Ok (ps ++ rest)
      end
  end.

Fixpoint select_rows {A} (mask : list bool) (rs : list A) : list A :=
  match mask, rs with
  | true :: mask', r :: rs' => r :: select_rows mask' rs'
  | false :: mask', _ :: rs' => select_rows mask' rs'
  | _, _ => []
  end.

Definition loc (df : DataFrame) (mask : list bool) (names : list pystr)
  : result DataFrame :=
  ps <- loc_positions (columns df) names ;;
  Ok {| columns := map (fun i => nth i (columns df) (LStr [])) ps;
        rows := map (fun r => map (fun i => nth i r VNaN) ps)
                  (select_rows mask (rows df)) |}.

(** The line shown under "Resultados". *)
Inductive status :=
| NoMatches                                  (* st.warning *)
| AwaitingInput                              (* st.info *)
| Found (count : nat) (country : pystr).     (* st.success *)

Record download_button := {
  data : bytes;
  file_name : pystr
}.

Record view := {
  terms : list pystr;
  results : DataFrame;
  shown : status;
  download : option download_button;
  table : option DataFrame
}.

Inductive outcome :=
| NoSheets                  (* st.error, st.stop *)
| NoData                    (* st.warning, st.stop *)
| Uncaught (e : exn)
| Rendered (v : view).

Section Page.
Variable U : UnicodeData.

(** [terms = tokenize_query(q) if q else []] *)
Definition query_terms (q : pystr) : list pystr :=
  if nonempty q then tokenize_query U q else [].

(** the [if terms: ... else: ...] block computing [results] *)
Definition search (df : DataFrame) (terms : list pystr) : result DataFrame :=
  if nonempty terms then
    sel <- getitem df (LStr (py "productos")) ;;
    match sel with
    | Frame _ => Raise ValueError
    | Series i =>
        let mask := map (fun r => match_row U (nth i r VNaN) terms) (rows df) in
        loc df mask DISPLAY_ORDER
    end
  else Ok (empty_frame DISPLAY_ORDER).

(** the status line *)
Definition status_of (terms : list pystr) (results : DataFrame)
  (selected_country : pystr) : status :=
  if nonempty terms && empty results then NoMatches
  else if negb (nonempty terms) then AwaitingInput
  else Found (length (rows results)) selected_country.

(** the download button of a non-empty result *)
Definition download_of (results : DataFrame) (selected_country : pystr)
  : result (option download_button) :=
  if negb (empty results) then
    csv <- encode_utf8_sig (to_csv results) ;;
    Ok (Some {| data := csv;
                file_name :=
                  py "proveedores_" ++ selected_country ++ py ".csv" |})
  else Ok None.

(** The script from the country selector on: [workbook] is the loaded
    workbook, [selected_country] and [q] the values of the two widgets. *)
Definition page (workbook : list (pystr * DataFrame))
  (selected_country q : pystr) : outcome :=
  match workbook with
  | [] => NoSheets
  | _ :: _ =>
      let raw_df := dict_get str_eqb selected_country workbook in
      if match raw_df with None => true | Some d => empty d end then NoData
      else
        match standardize_columns U raw_df with
        | Raise e => Uncaught e
        | Ok df =>
            let terms := query_terms q in
            match search df terms with
            | Raise e => Uncaught e
            | Ok results =>
                match download_of results selected_country with
                | Raise e => Uncaught e
                | Ok button =>
                    Rendered
                      {| terms := terms;
                         results := results;
                         shown := status_of terms results selected_country;
                         download := button;
                         table := if negb (empty results) then Some results
                                  else None |}
                end
            end
        end
  end.
End Page.

(** ** Conditions and sample tables used in the statements *)


(** a cell that is a string without surrounding whitespace *)
Definition trimmed (U : UnicodeData) (v : value) : Prop :=
  exists s, v = VStr s /\ strip U s = s.

(** every [/] of [s] comes right after a space, [prev] being the character
    before [s] *)
Fixpoint guarded (prev : N) (s : pystr) : bool :=
  match s with
  | [] => true
  | c :: rest => (negb (c =? 47) || (prev =? 32))%N && guarded c rest
  end.

(** a field of a sheet read as text: a string, or null *)
Definition field_value (f : option pystr) : value :=
  match f with
  | Some s => VStr s
  | None => VNone
  end.

(** The text normaliser in the words of its contract: coerce to a string
    (null becomes the empty string), trim, decompose, strip the combining
    marks, case-fold. *)
Definition coerce (v : value) : pystr :=
  match v with
  | VNone => []
  | _ => str_of v
  end.


(** a character that is not a combining one *)
Definition starter (U : UnicodeData) (ch : N) : bool := (combining U ch =? 0)%N.




(** the sheet of the first end-to-end scenario *)
Definition df_argentina : DataFrame :=
  {| columns := [LStr (py "Proveedor"); LStr (py "Producto")];
     rows := [[VStr (py " Maltas del Sur ");
               VStr (py "Latas, tapas, malta")]] |}.

(** ... and what the aliaser makes of it *)
Definition out_argentina : DataFrame :=
  {| columns :=
       map LStr
         [py "nombre"; py "productos"; py "web"; py "telefono"; py "email";
          py "pais"; py "provincia / estado"; py "ciudad"; py "direccion"];
     rows :=
       [[VStr (py "Maltas del Sur"); VStr (py "Latas, tapas, malta");
         VStr []; VStr []; VStr []; VStr []; VStr []; VStr []; VStr []]] |}.

(** a workbook with that one sheet *)
Definition wb_argentina : list (pystr * DataFrame) :=
  [(py "Argentina", df_argentina)].

(** the view of a query without terms *)
Definition view_awaiting : view :=
  {| terms := [];
     results := empty_frame DISPLAY_ORDER;
     shown := AwaitingInput;
     download := None;
     table := None |}.


(** two headers that differ in case only *)
Definition df_two_nombres : DataFrame :=
  {| columns := [LStr (py "nombre"); LStr (py "Nombre")];
     rows := [[VStr (py "Acme"); VStr (py "Acme SA")]] |}.

(** a header spelled as the slash variant of the dictionary *)
Definition df_slash : DataFrame :=
  {| columns := [LStr (py "provincia/estado")];
     rows := [[VStr (py "Cordoba")]] |}.

(** ... which comes out under its own header, next to an empty canonical
    column *)
Definition out_slash : DataFrame :=
  {| columns :=
       map LStr
         [py "provincia/estado"; py "nombre"; py "web"; py "telefono";
          py "email"; py "pais"; py "provincia / estado"; py "ciudad";
          py "direccion"; py "productos"];
     rows :=
       [[VStr (py "Cordoba"); VStr []; VStr []; VStr []; VStr []; VStr [];
         VStr []; VStr []; VStr []; VStr []]] |}.

(** two headers that are different variants of [telefono] *)
Definition df_tel_whatsapp : DataFrame :=
  {| columns := [LStr (py "Tel"); LStr (py "WhatsApp")];
     rows := [[VStr (py "111"); VStr (py "222")]] |}.

(** the five accented vowels [_normalize_col] replaces *)
Definition accented_vowels : list N := [225; 233; 237; 243; 250]%N.

(** the headers a run of the aliaser ends with, before the clean-up loop *)
Definition final_headers (U : UnicodeData) (cols : list label) : list label :=
  renamed U COL_ALIASES cols ++ missing CANONICAL (renamed U COL_ALIASES cols).

(** a Unicode scalar value: a code point that is not a surrogate *)
Definition is_scalar (c : N) : bool :=
  ((c <? 55296) || (57343 <? c) && (c <? 1114112))%N.

(** a cell whose text holds scalar values only *)
Definition encodable (v : value) : Prop :=
  Forall (fun c => is_scalar c = true) (cell_text v).

(** * Properties *)

Unset Implicit Arguments.

(** ** Strings *)

Lemma str_eqb_eq (a b : pystr) : str_eqb a b = true <-> a = b.
Proof.
  revert b; induction a as [|x a IH]; intros [|y b]; simpl;
    try (split; congruence).
  rewrite andb_true_iff, N.eqb_eq, IH. split.
  - intros [-> ->]; reflexivity.
  - intros E; injection E; auto.
Qed.


Lemma str_eqb_neq (a b : pystr) : str_eqb a b = false <-> a <> b.
Proof.
  rewrite <- str_eqb_eq. destruct (str_eqb a b); split; congruence.
Qed.

Lemma label_eqb_eq (a b : label) : label_eqb a b = true <-> a = b.
Proof.
  destruct a as [s|i r], b as [t|j u]; simpl; try (split; congruence).
  - rewrite str_eqb_eq; split; congruence.
  - rewrite andb_true_iff, N.eqb_eq, str_eqb_eq. split.
    + intros [-> ->]; reflexivity.
    + intros E; injection E; auto.
Qed.

Lemma label_eqb_refl (a : label) : label_eqb a a = true.
Proof. apply label_eqb_eq; reflexivity. Qed.

Lemma label_eqb_neq (a b : label) : label_eqb a b = false <-> a <> b.
Proof.
  rewrite <- label_eqb_eq. destruct (label_eqb a b); split; congruence.
Qed.

Lemma starts_with_spec (t p : pystr) :
  starts_with t p = true <-> exists r, p = t ++ r.
Proof.
  revert p; induction t as [|o t IH]; intros p; simpl.
  - split; eauto.
  - destruct p as [|c p].
    + split; [discriminate | intros [r E]; discriminate].
    + rewrite andb_true_iff, N.eqb_eq, IH. split.
      * intros [-> [r ->]]. exists r; reflexivity.
      * intros [r E]. injection E as -> ->. eauto.
Qed.

Lemma contains_spec (p t : pystr) :
  contains p t = true <-> exists l r, p = l ++ t ++ r.
Proof.
  induction p as [|c p IH]; simpl; rewrite orb_true_iff, starts_with_spec.
  - split.
    + intros [[r E]|E]; [exists [], r; exact E | discriminate].
    + intros [l [r E]]. left. destruct l; [eauto | discriminate].
  - rewrite IH. split.
    + intros [[r E]|[l [r E]]].
      * exists [], r; exact E.
      * exists (c :: l), r. simpl. congruence.
    + intros [[|x l] [r E]].
      * left; exists r; exact E.
      * right. injection E as _ E. eauto.
Qed.

Section StripFacts.
Variable U : UnicodeData.

Lemma lstrip_split (s : pystr) :
  exists a, s = a ++ lstrip U s /\ Forall (fun c => isspace U c = true) a.
Proof.
  induction s as [|c s [a [E F]]]; simpl.
  - exists []; auto.
  - destruct (isspace U c) eqn:Hc.
    + exists (c :: a). split; [simpl; congruence | constructor; auto].
    + exists []; auto.
Qed.

Lemma lstrip_head (s : pystr) c r :
  lstrip U s = c :: r -> isspace U c = false.
Proof.
  induction s as [|x s IH]; simpl; [discriminate|].
  destruct (isspace U x) eqn:Hx; auto.
  intros E; injection E as -> _; exact Hx.
Qed.

Lemma lstrip_fixed (s : pystr) :
  match s with [] => True | c :: _ => isspace U c = false end ->
  lstrip U s = s.
Proof. destruct s as [|c s]; simpl; auto. intros ->; reflexivity. Qed.

Lemma lstrip_idem (s : pystr) : lstrip U (lstrip U s) = lstrip U s.
Proof.
  apply lstrip_fixed. destruct (lstrip U s) eqn:E; auto.
  eapply lstrip_head; eauto.
Qed.

Lemma lstrip_all_space (s : pystr) :
  Forall (fun c => isspace U c = true) s -> lstrip U s = [].
Proof. induction 1 as [|c s Hc _ IH]; simpl; auto. rewrite Hc; auto. Qed.

Lemma rstrip_prefix (t : pystr) : exists a, t = rstrip U t ++ a.
Proof.
  unfold rstrip. destruct (lstrip_split (rev t)) as [a [E _]].
  exists (rev a). rewrite <- rev_app_distr, <- E, rev_involutive; reflexivity.
Qed.

Lemma strip_idem (s : pystr) : strip U (strip U s) = strip U s.
Proof.
  unfold strip. set (t := lstrip U s).
  assert (H : lstrip U (rstrip U t) = rstrip U t).
  { apply lstrip_fixed. destruct (rstrip_prefix t) as [a E].
    destruct (rstrip U t) as [|c r] eqn:R; auto.
    apply (@lstrip_head s c (r ++ a)). fold t. rewrite E at 1. reflexivity. }
  rewrite H. unfold rstrip. rewrite rev_involutive, lstrip_idem; reflexivity.
Qed.

Lemma strip_all_space (s : pystr) :
  Forall (fun c => isspace U c = true) s -> strip U s = [].
Proof. intros H. unfold strip. rewrite lstrip_all_space; auto. Qed.

End StripFacts.

(** ** Dictionaries and table primitives *)

Lemma find_app {A} (p : A -> bool) (l l' : list A) :
  find p (l ++ l') =
  match find p l with Some x => Some x | None => find p l' end.
Proof. induction l as [|x l IH]; simpl; auto. destruct (p x); auto. Qed.

Lemma find_none_iff {A} (p : A -> bool) (l : list A) :
  find p l = None <-> forall x, In x l -> p x = false.
Proof.
  induction l as [|a l IH]; simpl.
  - split; [intros _ x [] | auto].
  - destruct (p a) eqn:Ha.
    + split; [discriminate|]. intros H. rewrite (H a) in Ha; auto; discriminate.
    + rewrite IH. split.
      * intros H x [<-|Hx]; auto.
      * intros H x Hx; auto.
Qed.



Section DictFacts.
Variables K V : Type.
Variable eqb : K -> K -> bool.
Hypothesis eqb_eq : forall a b, eqb a b = true <-> a = b.

Lemma dict_get_set (k k' : K) (v : V) (d : list (K * V)) :
  dict_get eqb k' (dict_set eqb k v d) =
  if eqb k' k then Some v else dict_get eqb k' d.
Proof.
  induction d as [|[k0 v0] d IH]; simpl.
  - reflexivity.
  - destruct (eqb k k0) eqn:E0; simpl.
    + apply eqb_eq in E0; subst k0. destruct (eqb k' k); reflexivity.
    + destruct (eqb k' k0) eqn:E1.
      * destruct (eqb k' k) eqn:E2; auto.
        apply eqb_eq in E1, E2; subst. rewrite (proj2 (eqb_eq k0 k0)) in E0;
          congruence.
      * exact IH.
Qed.
End DictFacts.

Lemma positions_from_length c cols i :
  length (positions_from c cols i) = length (filter (label_eqb c) cols).
Proof.
  revert i; induction cols as [|a cols IH]; intros i; simpl; auto.
  destruct (label_eqb c a); simpl; auto.
Qed.

Lemma positions_from_app c l1 l2 i :
  positions_from c (l1 ++ l2) i =
  positions_from c l1 i ++ positions_from c l2 (i + length l1).
Proof.
  revert i; induction l1 as [|a l1 IH]; intros i; simpl.
  - rewrite Nat.add_0_r; reflexivity.
  - rewrite IH. replace (S i + length l1) with (i + S (length l1)) by lia.
    destruct (label_eqb c a); reflexivity.
Qed.

Lemma positions_from_notin c cols i :
  ~ In c cols -> positions_from c cols i = [].
Proof.
  revert i; induction cols as [|a cols IH]; intros i H; simpl; auto.
  destruct (label_eqb c a) eqn:E.
  - apply label_eqb_eq in E. subst. elim H; left; reflexivity.
  - apply IH. intros Hc; apply H; right; exact Hc.
Qed.

Lemma positions_from_in c cols i :
  In c cols -> positions_from c cols i <> [].
Proof.
  revert i; induction cols as [|a cols IH]; intros i H; simpl; [elim H|].
  destruct (label_eqb c a) eqn:E; [discriminate|].
  destruct H as [->|H]; [rewrite label_eqb_refl in E; discriminate|].
  apply IH; exact H.
Qed.

Lemma positions_nodup done c todo :
  NoDup (done ++ c :: todo) ->
  positions_from c (done ++ c :: todo) 0 = [length done].
Proof.
  intros H. rewrite positions_from_app. simpl. rewrite label_eqb_refl.
  apply NoDup_remove_2 in H.
  rewrite !positions_from_notin; auto; intros Hc; apply H, in_or_app; auto.
Qed.

Lemma filter_in_nonempty c (l : list label) :
  In c l -> 1 <= length (filter (label_eqb c) l).
Proof.
  induction l as [|a l IH]; simpl; [intros []|].
  destruct (label_eqb c a) eqn:E; simpl; [lia|].
  intros [->|H]; auto. rewrite label_eqb_refl in E; discriminate.
Qed.

Lemma nodup_of_single (l : list label) :
  (forall c, In c l -> length (filter (label_eqb c) l) = 1) -> NoDup l.
Proof.
  induction l as [|a l IH]; intros H; constructor.
  - intros Ha. specialize (H a (or_introl eq_refl)). simpl in H.
    rewrite label_eqb_refl in H. simpl in H.
    pose proof (filter_in_nonempty a l Ha). lia.
  - apply IH. intros c Hc. pose proof (H c (or_intror Hc)) as H1.
    simpl in H1. destruct (label_eqb c a); simpl in H1; auto.
    pose proof (filter_in_nonempty c l Hc). lia.
Qed.

Lemma update_at_firstn {A} (f : A -> A) (k : nat) (r : list A) :
  update_at k f (map f (firstn k r) ++ skipn k r) =
  map f (firstn (S k) r) ++ skipn (S k) r.
Proof.
  revert r; induction k as [|k IH]; intros [|x r]; simpl; auto.
  f_equal. exact (IH r).
Qed.

(** ** The loops of [standardize_columns] *)

Lemma missing_spec (needed : list pystr) (cols : list label) :
  (forall n, In n needed -> In (LStr n) (cols ++ missing needed cols))
  /\ (forall x, In x (missing needed cols) ->
        exists n, x = LStr n /\ In n needed /\ ~ In x cols).
Proof.
  revert cols; induction needed as [|n needed IH]; intros cols; simpl.
  - split; [intros n [] | intros x []].
  - destruct (existsb (label_eqb (LStr n)) cols) eqn:E.
    + destruct (IH cols) as [IH1 IH2]. split.
      * intros m [<-|Hm]; auto.
        apply existsb_exists in E. destruct E as [x [Hx Ex]].
        apply label_eqb_eq in Ex. subst x. apply in_or_app; auto.
      * intros x Hx. destruct (IH2 x Hx) as [m [-> [Hm Hn]]]. eauto.
    + destruct (IH (cols ++ [LStr n])) as [IH1 IH2]. split.
      * intros m [<-|Hm].
        -- apply in_or_app; right; left; reflexivity.
        -- specialize (IH1 m Hm). rewrite <- app_assoc in IH1. exact IH1.
      * intros x [<-|Hx].
        -- exists n. repeat split; auto. intros Hin.
           assert (existsb (label_eqb (LStr n)) cols = true); [|congruence].
           apply existsb_exists. exists (LStr n). split; auto.
           apply label_eqb_refl.
        -- destruct (IH2 x Hx) as [m [-> [Hm Hn]]]. exists m.
           repeat split; auto. intros Hin. apply Hn, in_or_app; auto.
Qed.


Lemma ensure_columns_spec (needed : list pystr) (df : DataFrame) :
  ensure_columns needed df =
  {| columns := columns df ++ missing needed (columns df);
     rows :=
       map (fun r =>
              r ++ repeat (VStr []) (length (missing needed (columns df))))
         (rows df) |}.
Proof.
  unfold ensure_columns. revert df.
  induction needed as [|n needed IH]; intros [cols rs]; simpl.
  - rewrite app_nil_r. f_equal. rewrite <- (map_id rs) at 1.
    apply map_ext. intros r. rewrite app_nil_r; reflexivity.
  - rewrite IH. unfold has_column, add_column. simpl.
    destruct (existsb (label_eqb (LStr n)) cols); simpl.
    + reflexivity.
    + rewrite <- app_assoc. simpl.
      f_equal. rewrite map_map. apply map_ext. intros r.
      rewrite <- app_assoc. reflexivity.
Qed.

Section Cleanup.
Variable U : UnicodeData.

(** a row whose first [k] cells have been cleaned *)
Let partial (k : nat) (r : list value) : list value :=
  map (clean_cell U) (firstn k r) ++ skipn k r.

Lemma clean_column_inv df c out :
  clean_column U df c = Ok out ->
  columns out = columns df /\
  length (filter (label_eqb c) (columns df)) = 1.
Proof.
  unfold clean_column, getitem. rewrite <- (positions_from_length c _ 0).
  destruct (positions_from c (columns df) 0) as [|i [|j ps]]; simpl;
    try discriminate.
  intros E; injection E as <-. auto.
Qed.

Lemma for_each_clean_inv cs df out :
  for_each cs (clean_column U) df = Ok out ->
  columns out = columns df /\
  forall c, In c cs -> length (filter (label_eqb c) (columns df)) = 1.
Proof.
  revert df; induction cs as [|c cs IH]; intros df; simpl.
  - intros E; injection E as <-. split; [reflexivity | intros c []].
  - destruct (clean_column U df c) as [df'|e] eqn:E; simpl; [|discriminate].
    intros H. apply clean_column_inv in E. destruct E as [E1 E2].
    destruct (IH _ H) as [H1 H2]. rewrite E1 in *. split; auto.
    intros x [<-|Hx]; auto.
Qed.

Lemma cleanup_nodup df out :
  for_each (columns df) (clean_column U) df = Ok out -> NoDup (columns df).
Proof.
  intros H. apply for_each_clean_inv in H. apply nodup_of_single, H.
Qed.

Lemma cleanup_from done todo rows0 :
  NoDup (done ++ todo) ->
  for_each todo (clean_column U)
    {| columns := done ++ todo; rows := map (partial (length done)) rows0 |}
  = Ok {| columns := done ++ todo;
          rows := map (partial (length (done ++ todo))) rows0 |}.
Proof.
  revert done; induction todo as [|c todo IH]; intros done ND; simpl.
  - rewrite app_nil_r. reflexivity.
  - unfold clean_column at 1, getitem. simpl columns.
    rewrite positions_nodup by exact ND. simpl.
    replace (done ++ c :: todo) with ((done ++ [c]) ++ todo) in *
      by (rewrite <- app_assoc; reflexivity).
    rewrite map_map.
    rewrite (map_ext _ (partial (length (done ++ [c])))).
    + apply IH. exact ND.
    + intros r. unfold partial. rewrite update_at_firstn.
      rewrite length_app. simpl. rewrite Nat.add_1_r. reflexivity.
Qed.

Lemma cleanup_ok (df : DataFrame) :
  NoDup (columns df) -> rectangular df ->
  for_each (columns df) (clean_column U) df =
  Ok {| columns := columns df; rows := map (map (clean_cell U)) (rows df) |}.
Proof.
  intros ND R. destruct df as [cols rs]; simpl in *.
  pose proof (@cleanup_from [] cols rs ND) as H. simpl in H.
  rewrite (map_ext_in (partial 0) (fun r => r)) in H
    by (intros r _; reflexivity).
  rewrite map_id in H. rewrite H. f_equal. f_equal.
  apply map_ext_in. intros r Hr. unfold partial.
  unfold rectangular in R. simpl in R. rewrite Forall_forall in R.
  rewrite <- (R r Hr), firstn_all, skipn_all, app_nil_r. reflexivity.
Qed.
End Cleanup.

(** ** The aliaser *)

Section Aliaser.
Variable U : UnicodeData.
Variable aliases : list (pystr * list pystr).
Variable needed : list pystr.

(** The dictionary comprehension keeps, for each key, the last column
    that normalises to it. *)
Lemma cols_norm_get (cols : list label) (k : pystr) :
  dict_get str_eqb k (cols_norm U cols) = find (normalizes_to U k) (rev cols).
Proof.
  unfold cols_norm.
  enough (G : forall d,
    dict_get str_eqb k
      (fold_left (fun d c => dict_set str_eqb (_normalize_col U c) c d) cols d)
    = match find (normalizes_to U k) (rev cols) with
      | Some c => Some c
      | None => dict_get str_eqb k d
      end).
  { rewrite G. destruct (find (normalizes_to U k) (rev cols)); reflexivity. }
  induction cols as [|c cols IH]; intros d; simpl; auto.
  rewrite IH, find_app. destruct (find (normalizes_to U k) (rev cols)); auto.
  simpl. rewrite (dict_get_set _ _ _ str_eqb_eq). unfold normalizes_to.
  destruct (str_eqb k (_normalize_col U c)); reflexivity.
Qed.

Lemma cols_norm_get_some (cols : list label) (k : pystr) (c : label) :
  dict_get str_eqb k (cols_norm U cols) = Some c ->
  _normalize_col U c = k /\ In c cols.
Proof.
  rewrite cols_norm_get. intros H. apply find_some in H.
  destruct H as [H1 H2]. unfold normalizes_to in H2. apply str_eqb_eq in H2.
  split; auto. apply in_rev; exact H1.
Qed.


Lemma find_variant_some cn (variants : list pystr) c :
  find_variant cn variants = Some c ->
  exists v, In v variants /\ dict_get str_eqb v cn = Some c.
Proof.
  induction variants as [|v variants IH]; simpl; [discriminate|].
  destruct (dict_get str_eqb v cn) as [c'|] eqn:E.
  - intros H; injection H as ->. eauto.
  - intros H. destruct (IH H) as [w [Hw Ew]]. eauto.
Qed.

(** An entry of the mapping comes from a target whose inner loop found
    its key. *)
Lemma build_mapping_get cn (c : label) (t : pystr) :
  dict_get label_eqb c (build_mapping aliases cn) = Some t ->
  exists vs, In (t, vs) aliases /\ find_variant cn vs = Some c.
Proof.
  unfold build_mapping.
  enough (G : forall al m0,
    dict_get label_eqb c
      (fold_left
         (fun mapping '(target, variants) =>
            match find_variant cn variants with
            | Some found => dict_set label_eqb found target mapping
            | None => mapping
            end) al m0) = Some t ->
    dict_get label_eqb c m0 = Some t \/
    exists vs, In (t, vs) al /\ find_variant cn vs = Some c).
  { intros H. destruct (G _ _ H) as [H0|H0]; [discriminate | exact H0]. }
  induction al as [|[t' vs'] al IH]; intros m0; simpl; auto.
  intros H. destruct (IH _ H) as [H0|[vs [Hin Hf]]]; eauto.
  destruct (find_variant cn vs') as [found|] eqn:F; auto.
  rewrite (dict_get_set _ _ _ label_eqb_eq) in H0.
  destruct (label_eqb c found) eqn:E; auto.
  apply label_eqb_eq in E. subst found. injection H0 as ->.
  right. exists vs'. auto.
Qed.


(** What a successful run returns, and when a run succeeds. *)
Lemma standardize_complete (df : DataFrame) :
  empty df = false -> rectangular df ->
  let cols2 := renamed U aliases (columns df) in
  let added := missing needed cols2 in
  NoDup (cols2 ++ added) ->
  standardize_columns_with U aliases needed (Some df) =
  Ok {| columns := cols2 ++ added;
        rows := map (fun r => map (clean_cell U) r
                              ++ repeat (VStr []) (length added))
                  (rows df) |}.
Proof.
  intros E R cols2 added ND. unfold standardize_columns_with.
  rewrite E, ensure_columns_spec. simpl columns. simpl rows.
  fold (renamed U aliases (columns df)). fold cols2. fold added.
  match goal with |- for_each _ _ ?d = _ =>
    change (for_each (columns d) (clean_column U) d = Ok
      {| columns := cols2 ++ added;
         rows := map (fun r => map (clean_cell U) r
                               ++ repeat (VStr []) (length added))
                   (rows df) |})
  end.
  rewrite cleanup_ok; simpl; auto.
  - f_equal. f_equal. rewrite map_map. apply map_ext. intros r.
    rewrite map_app, map_repeat. reflexivity.
  - unfold rectangular in *. simpl. rewrite Forall_forall in *.
    intros r Hr. apply in_map_iff in Hr. destruct Hr as [r0 [<- Hr0]].
    rewrite !length_app, repeat_length. unfold cols2, renamed.
    rewrite length_map, (R r0 Hr0). reflexivity.
Qed.

Lemma standardize_success (df out : DataFrame) :
  empty df = false -> rectangular df ->
  standardize_columns_with U aliases needed (Some df) = Ok out ->
  let cols2 := renamed U aliases (columns df) in
  let added := missing needed cols2 in
  NoDup (cols2 ++ added) /\
  out = {| columns := cols2 ++ added;
           rows := map (fun r => map (clean_cell U) r
                                 ++ repeat (VStr []) (length added))
                     (rows df) |}.
Proof.
  intros E R H cols2 added.
  assert (ND : NoDup (cols2 ++ added)).
  { unfold standardize_columns_with in H. rewrite E in H.
    apply cleanup_nodup in H. rewrite ensure_columns_spec in H.
    exact H. }
  split; auto.
  pose proof (standardize_complete df E R ND) as H'.
  fold cols2 added in H'. congruence.
Qed.
End Aliaser.

(** ** Running the aliaser on its own output *)



Section Idempotence.
Variable U : UnicodeData.
Variable aliases : list (pystr * list pystr).
Variable needed : list pystr.

(** every target heads its own variants *)
Hypothesis canonical_first :
  forall t vs, In (t, vs) aliases -> exists vs', vs = t :: vs'.
(** a target is a variant of itself only *)
Hypothesis canonical_own :
  forall t vs t' vs',
    In (t, vs) aliases -> In (t', vs') aliases -> In t vs' -> t' = t.
(** the canonical names are their own keys *)
Hypothesis needed_fixed :
  forall n, In n needed -> _normalize_col U (LStr n) = n.
Hypothesis targets_needed :
  forall t vs, In (t, vs) aliases -> In t needed.





End Idempotence.

(** ** The alias dictionary as written *)

Ltac alias_cases H :=
  simpl in H;
  repeat (destruct H as [H|H]; [injection H as <- <-|]);
  try contradiction.

Lemma aliases_canonical_first t vs :
  In (t, vs) COL_ALIASES -> exists vs', vs = t :: vs'.
Proof. intros H. alias_cases H; eexists; reflexivity. Qed.

Lemma aliases_targets t vs : In (t, vs) COL_ALIASES -> In t CANONICAL.
Proof. intros H. alias_cases H; simpl; tauto. Qed.

(** No variant is listed under two targets. *)
Lemma aliases_disjoint t vs t' vs' v :
  In (t, vs) COL_ALIASES -> In (t', vs') COL_ALIASES ->
  In v vs -> In v vs' -> t = t' /\ vs = vs'.
Proof.
  intros H H' Hv Hv'. alias_cases H; alias_cases H';
    try (split; reflexivity); exfalso;
    simpl in Hv; repeat (destruct Hv as [<-|Hv]; try contradiction);
    simpl in Hv'; repeat (destruct Hv' as [Hv'|Hv']; try contradiction);
    vm_compute in Hv'; discriminate.
Qed.


(** ** What a run of the aliaser returns *)

Lemma standardize_columns_absent (U : UnicodeData) (df : option DataFrame) :
  match df with None => True | Some d => empty d = true end ->
  standardize_columns U df = Ok (empty_frame CANONICAL).
Proof.
  destruct df as [d|]; [|reflexivity].
  intros E. unfold standardize_columns, standardize_columns_with.
  rewrite E. reflexivity.
Qed.

(** A run that returns gives the canonical schema: the nine columns are
    there, no header occurs twice, and every cell is a trimmed string. *)
Lemma standardize_columns_schema (U : UnicodeData) (df out : DataFrame) :
  rectangular df -> empty df = false ->
  standardize_columns U (Some df) = Ok out ->
  (forall n, In n CANONICAL -> In (LStr n) (columns out))
  /\ NoDup (columns out)
  /\ rectangular out
  /\ Forall (Forall (trimmed U)) (rows out).
Proof.
  intros R E H.
  destruct (standardize_success U COL_ALIASES CANONICAL df out E R H)
    as [ND ->].
  cbn [columns rows]. repeat split; auto.
  - intros n Hn. apply (proj1 (missing_spec CANONICAL _)); exact Hn.
  - unfold rectangular in *. cbn [columns rows]. rewrite Forall_forall in *.
    intros r Hr. apply in_map_iff in Hr. destruct Hr as [r0 [<- Hr0]].
    rewrite !length_app, repeat_length, length_map. unfold renamed.
    rewrite length_map, (R r0 Hr0). reflexivity.
  - rewrite Forall_forall. intros r Hr.
    apply in_map_iff in Hr. destruct Hr as [r0 [<- _]].
    apply Forall_app. split.
    + rewrite Forall_forall. intros v Hv.
      apply in_map_iff in Hv. destruct Hv as [v0 [<- _]].
      eexists. split; [reflexivity | apply strip_idem].
    + rewrite Forall_forall. intros v Hv. apply repeat_spec in Hv. subst v.
      exists []. split; reflexivity.
Qed.

(** C3 (the aliaser never fails and always returns the nine canonical
    columns): on a sheet whose headers are [nombre] and [Nombre] the
    dictionary comprehension keeps [Nombre] for the key [nombre], the
    renaming gives both columns the header [nombre], and the clean-up loop
    raises [AttributeError], since [df2["nombre"]] is then a frame, which
    has no [.str] accessor. *)
Theorem standardize_columns_duplicate_header_raises :
  rectangular df_two_nombres /\ empty df_two_nombres = false /\
  renamed ucd_es COL_ALIASES (columns df_two_nombres)
    = [LStr (py "nombre"); LStr (py "nombre")] /\
  standardize_columns ucd_es (Some df_two_nombres) = Raise AttributeError.
Proof.
  split; [repeat constructor|]. split; [reflexivity|].
  split; vm_compute; reflexivity.
Qed.





(** ** Text normalisation and matching *)

Section TextFacts.
Variable U : UnicodeData.

Lemma filter_reorder_insert (c : N) (out_rev : list N) :
  filter (starter U) (reorder_insert U c out_rev) =
  filter (starter U) (c :: out_rev).
Proof.
  induction out_rev as [|p rest IH]; [reflexivity|].
  cbn [reorder_insert].
  destruct (negb (combining U c =? 0)%N) eqn:Hc; cbn [andb]; auto.
  destruct (combining U c <? combining U p)%N; auto.
  apply negb_true_iff in Hc. change (starter U c = false) in Hc.
  cbn [filter]. rewrite IH. cbn [filter]. rewrite Hc. reflexivity.
Qed.

(** Canonical ordering only moves combining characters, so it cannot be
    seen once they are removed. *)
Lemma filter_canonical_order (s : pystr) :
  filter (starter U) (canonical_order U s) = filter (starter U) s.
Proof.
  unfold canonical_order.
  enough (G : forall acc,
    filter (starter U) (fold_left (fun o c => reorder_insert U c o) s acc)
    = filter (starter U) (rev s) ++ filter (starter U) acc).
  { rewrite filter_rev, G, app_nil_r, <- filter_rev, rev_involutive.
    reflexivity. }
  induction s as [|c s IH]; intros acc; [reflexivity|].
  cbn [fold_left]. rewrite IH, filter_reorder_insert.
  cbn [rev]. rewrite filter_app, <- app_assoc. f_equal.
  cbn [filter]. destruct (starter U c); reflexivity.
Qed.

Lemma normalize_text_decomposed (v : value) :
  normalize_text U v =
  casefold U
    (filter (starter U) (flat_map (decomposition U) (strip U (coerce v)))).
Proof.
  unfold normalize_text, nfkd. fold (starter U).
  rewrite filter_canonical_order. destruct v; reflexivity.
Qed.

Lemma normalize_text_blank (q : pystr) :
  Forall (fun c => isspace U c = true) q -> normalize_text U (VStr q) = [].
Proof.
  intros H. unfold normalize_text. rewrite (strip_all_space U q H).
  reflexivity.
Qed.

Lemma tokenize_query_blank (q : pystr) :
  Forall (fun c => isspace U c = true) q -> tokenize_query U q = [].
Proof.
  intros H. unfold tokenize_query. rewrite (normalize_text_blank q H).
  reflexivity.
Qed.

(** replacing a false [productos_text] by the empty string changes nothing
    for a text field *)
Lemma match_row_field (f : option pystr) (ts : list pystr) :
  match_row U (field_value f) ts =
  forallb (contains (normalize_text U (field_value f))) ts.
Proof. destruct f as [[|c s]|]; reflexivity. Qed.
End TextFacts.


(** C2, as stated, fails on its own example: [lata] is not a substring of
    [latex], so the matcher rejects that field. *)
Lemma lata_does_not_match_latex :
  normalize_text ucd_es (VStr (py "latex")) = py "latex" /\
  match_row ucd_es (VStr (py "latex")) [py "lata"] = false.
Proof. split; vm_compute; reflexivity. Qed.

(** C2, amended: for a text field [f] (possibly null), [match_row f ts]
    holds exactly when every term of [ts] is a contiguous substring of
    [normalize_text f].  So [lata] matches a field holding "latas de
    aluminio" -- but not one holding "latex", which [lat] matches -- and
    [latas] does not match a field holding "lato". *)
Theorem match_row_substrings :
  (forall U (f : option pystr) (ts : list pystr),
      match_row U (field_value f) ts = true <->
      Forall (fun t => exists l r,
                  normalize_text U (field_value f) = l ++ t ++ r) ts) /\
  match_row ucd_es (VStr (py "latas de aluminio")) [py "lata"] = true /\
  match_row ucd_es (VStr (py "latex")) [py "lat"] = true /\
  match_row ucd_es (VStr (py "lato")) [py "latas"] = false.
Proof.
  split; [|repeat split; vm_compute; reflexivity].
  intros U f ts. rewrite match_row_field, forallb_forall, Forall_forall.
  split; intros H t Ht; apply contains_spec, H, Ht.
Qed.

(** C9 (no terms): the matcher accepts every field when there are no
    terms, for any value of the field, so filtering with it would keep
    every row; it is the caller that returns no rows for an empty term
    list, without consulting the matcher and whatever the table holds. *)
Theorem match_row_no_terms :
  forall U : UnicodeData,
    (forall f : value, match_row U f [] = true) /\
    (forall (df : DataFrame) (i : nat),
        filter (fun r => match_row U (nth i r VNaN) []) (rows df) = rows df) /\
    (forall df : DataFrame,
        search U df [] = Ok (empty_frame DISPLAY_ORDER)) /\
    rows (empty_frame DISPLAY_ORDER) = [].
Proof.
  intros U. split; [reflexivity|]. split; [|split; reflexivity].
  intros df i. induction (rows df) as [|r rs IH]; [reflexivity|].
  cbn [filter]. change (match_row U (nth i r VNaN) []) with true.
  rewrite IH. reflexivity.
Qed.

(** ** The page *)

Lemma positions_from_nth c cols k i :
  In i (positions_from c cols k) ->
  k <= i /\ nth_error cols (i - k) = Some c.
Proof.
  revert k; induction cols as [|a cols IH]; intros k; simpl; [intros []|].
  assert (T : In i (positions_from c cols (S k)) ->
              k <= i /\ nth_error (a :: cols) (i - k) = Some c).
  { intros H. destruct (IH _ H) as [H1 H2]. split; [lia|].
    replace (i - k) with (S (i - S k)) by lia. exact H2. }
  destruct (label_eqb c a) eqn:E; auto.
  intros [<-|H]; auto. apply label_eqb_eq in E. subst a.
  rewrite Nat.sub_diag. split; [lia | reflexivity].
Qed.

Lemma nodup_single c (cols : list label) :
  NoDup cols -> length (filter (label_eqb c) cols) <= 1.
Proof.
  induction 1 as [|a cols Ha _ IH]; simpl; [lia|].
  destruct (label_eqb c a) eqn:E; auto.
  apply label_eqb_eq in E. subst a. simpl.
  destruct (filter (label_eqb c) cols) as [|x l] eqn:F; simpl; [lia|].
  exfalso. apply Ha. assert (Hx : In x (filter (label_eqb c) cols))
    by (rewrite F; left; reflexivity).
  apply filter_In in Hx. destruct Hx as [Hx Ex].
  apply label_eqb_eq in Ex. subst x. exact Hx.
Qed.

Lemma getitem_series (df : DataFrame) c i :
  getitem df c = Ok (Series i) -> nth_error (columns df) i = Some c.
Proof.
  unfold getitem.
  destruct (positions_from c (columns df) 0) as [|j [|k ps]] eqn:P;
    try discriminate.
  intros H; injection H as <-.
  destruct (positions_from_nth c (columns df) 0 j) as [_ H].
  - rewrite P; left; reflexivity.
  - rewrite Nat.sub_0_r in H. exact H.
Qed.

Lemma loc_positions_nodup (cols : list label) names ps :
  NoDup cols -> loc_positions cols names = Ok ps ->
  Forall2 (fun i n => nth_error cols i = Some (LStr n)) ps names.
Proof.
  intros ND. revert ps; induction names as [|n names IH]; intros ps; simpl.
  - intros H; injection H as <-. constructor.
  - destruct (positions_from (LStr n) cols 0) as [|i l] eqn:P; [discriminate|].
    destruct (loc_positions cols names) as [rest|] eqn:L; [|discriminate].
    simpl. intros H; injection H as <-.
    pose proof (nodup_single (LStr n) cols ND) as C.
    rewrite <- (positions_from_length _ _ 0), P in C.
    destruct l; [|simpl in C; lia]. simpl. constructor; auto.
    destruct (positions_from_nth (LStr n) cols 0 i) as [_ H].
    + rewrite P; left; reflexivity.
    + rewrite Nat.sub_0_r in H. exact H.
Qed.

Lemma select_rows_filter {A} (f : A -> bool) (rs : list A) :
  select_rows (map f rs) rs = filter f rs.
Proof.
  induction rs as [|r rs IH]; simpl; auto.
  destruct (f r); rewrite IH; reflexivity.
Qed.

(** What the search returns for a table without repeated headers: the
    rows whose [productos] cell matches, in their order, restricted to the
    display columns. *)
Lemma search_terms (U : UnicodeData) (df res : DataFrame) (ts : list pystr) :
  ts <> [] -> NoDup (columns df) -> search U df ts = Ok res ->
  exists ip ps,
    nth_error (columns df) ip = Some (LStr (py "productos")) /\
    Forall2 (fun i n => nth_error (columns df) i = Some (LStr n))
      ps DISPLAY_ORDER /\
    columns res = map LStr DISPLAY_ORDER /\
    rows res = map (fun r => map (fun i => nth i r VNaN) ps)
                 (filter (fun r => match_row U (nth ip r VNaN) ts) (rows df)).
Proof.
  intros Hts ND. unfold search. destruct ts as [|t ts]; [congruence|].
  cbn [nonempty].
  destruct (getitem df (LStr (py "productos"))) as [[ip|?]|] eqn:G;
    try discriminate.
  cbn [bind]. unfold loc.
  destruct (loc_positions (columns df) DISPLAY_ORDER) as [ps|] eqn:L;
    [|discriminate].
  cbn [bind]. intros H; injection H as <-.
  pose proof (loc_positions_nodup _ _ _ ND L) as F.
  exists ip, ps. split; [apply getitem_series; exact G|]. split; [exact F|].
  cbn [columns rows]. split.
  - clear L. induction F as [|i n ps ns Hi _ IH]; [reflexivity|].
    cbn [map]. rewrite IH. f_equal. apply nth_error_nth; exact Hi.
  - rewrite select_rows_filter. reflexivity.
Qed.

Lemma page_rendered (U : UnicodeData) (workbook : list (pystr * DataFrame))
  (selected_country q : pystr) (v : view) :
  page U workbook selected_country q = Rendered v ->
  exists raw df,
    dict_get str_eqb selected_country workbook = Some raw /\
    empty raw = false /\
    standardize_columns U (Some raw) = Ok df /\
    terms v = query_terms U q /\
    search U df (terms v) = Ok (results v) /\
    shown v = status_of (terms v) (results v) selected_country /\
    download_of (results v) selected_country = Ok (download v).
Proof.
  unfold page. destruct workbook as [|sheet others]; [discriminate|].
  destruct (dict_get str_eqb selected_country (sheet :: others)) as [raw|];
    [|discriminate].
  destruct (empty raw) eqn:E; [discriminate|].
  destruct (standardize_columns U (Some raw)) as [df|] eqn:S; [|discriminate].
  destruct (search U df (query_terms U q)) as [res|] eqn:R; [|discriminate].
  destruct (download_of res selected_country) as [button|] eqn:D;
    [|discriminate].
  intros H; injection H as <-. exists raw, df.
  cbn [terms results shown download].
  repeat (split; [assumption || reflexivity|]). assumption.
Qed.

Lemma standardize_columns_nodup (U : UnicodeData) (df out : DataFrame) :
  empty df = false -> standardize_columns U (Some df) = Ok out ->
  NoDup (columns out).
Proof.
  unfold standardize_columns, standardize_columns_with. intros -> H.
  destruct (for_each_clean_inv U _ _ _ H) as [E _]. rewrite E.
  exact (cleanup_nodup U _ _ H).
Qed.

Lemma loc_positions_nonempty (cols : list label) names ps :
  names <> [] -> loc_positions cols names = Ok ps -> ps <> [].
Proof.
  destruct names as [|n names]; [congruence|]. intros _. cbn [loc_positions].
  destruct (positions_from (LStr n) cols 0) as [|i l]; [discriminate|].
  destruct (loc_positions cols names) as [rest|]; [|discriminate].
  cbn [bind]. intros H; injection H as <-. discriminate.
Qed.

Lemma search_columns (U : UnicodeData) (df res : DataFrame) ts :
  search U df ts = Ok res -> columns res <> [].
Proof.
  unfold search. destruct ts as [|t ts]; cbn [nonempty].
  - intros H; injection H as <-. discriminate.
  - destruct (getitem df (LStr (py "productos"))) as [[ip|?]|];
      try discriminate.
    cbn [bind]. unfold loc.
    destruct (loc_positions (columns df) DISPLAY_ORDER) as [ps|] eqn:L;
      [|discriminate].
    cbn [bind]. intros H; injection H as <-. cbn [columns].
    apply loc_positions_nonempty in L; [|discriminate].
    destruct ps; [congruence | discriminate].
Qed.

Lemma empty_rows (df : DataFrame) :
  columns df <> [] -> (empty df = true <-> rows df = []).
Proof.
  unfold empty. destruct (columns df); [congruence|].
  intros _. destruct (rows df); split; congruence.
Qed.

(** C7 (empty query): a query that is empty or made of whitespace only
    gives no terms and no result rows, and the page shows the "awaiting
    input" line.  That line is not the "no matches" line, which is shown
    exactly when there is at least one term and no row matches -- hence
    only for a non-empty query. *)
Theorem blank_query_awaits_input
  (U : UnicodeData) (workbook : list (pystr * DataFrame))
  (selected_country q : pystr) (v : view) :
  page U workbook selected_country q = Rendered v ->
  (Forall (fun c => isspace U c = true) q ->
   terms v = [] /\ rows (results v) = [] /\ shown v = AwaitingInput) /\
  (shown v = NoMatches <-> terms v <> [] /\ rows (results v) = []) /\
  (shown v = NoMatches -> q <> []) /\
  AwaitingInput <> NoMatches.
Proof.
  intros H. apply page_rendered in H.
  destruct H as [raw [df [_ [_ [_ [T [S [St _]]]]]]]].
  assert (M : shown v = NoMatches <-> terms v <> [] /\ rows (results v) = []).
  { rewrite St. unfold status_of.
    pose proof (empty_rows (results v) (search_columns U df _ _ S)) as E.
    destruct (terms v) as [|t ts]; cbn [nonempty negb andb].
    - split; [discriminate | intros [N _]; congruence].
    - destruct (empty (results v)).
      + split; [|reflexivity]. intros _. split; [discriminate | apply E; auto].
      + split; [discriminate|]. intros [_ R]. apply E in R. discriminate. }
  split; [|split; [exact M|split; [|discriminate]]].
  - intros B.
    assert (T0 : terms v = []).
    { rewrite T. unfold query_terms. destruct (nonempty q); auto.
      apply tokenize_query_blank; exact B. }
    rewrite T0 in S, St. injection S as <-.
    split; [exact T0|]. split; [reflexivity | exact St].
  - intros N. apply M in N. destruct N as [N _]. rewrite T in N.
    unfold query_terms in N. destruct q; [|discriminate].
    exact (False_ind _ (N eq_refl)).
Qed.

(** A query of two spaces on the sheet of the first scenario awaits
    input; the query "cobre" on the same sheet has a term and no match. *)
Lemma blank_query_awaits_input_witness :
  page ucd_es wb_argentina (py "Argentina") (py "  ")
    = Rendered view_awaiting /\
  Forall (fun c => isspace ucd_es c = true) (py "  ") /\
  shown view_awaiting = AwaitingInput /\
  exists v,
    page ucd_es wb_argentina (py "Argentina") (py "cobre") = Rendered v /\
    terms v = [py "cobre"] /\ shown v = NoMatches.
Proof.
  assert (H : page ucd_es wb_argentina (py "Argentina") (py "  ")
              = Rendered view_awaiting) by (vm_compute; reflexivity).
  assert (B : Forall (fun c => isspace ucd_es c = true) (py "  "))
    by (repeat constructor).
  split; [exact H|]. split; [exact B|]. split.
  - exact (proj2 (proj2 (proj1
      (blank_query_awaits_input ucd_es wb_argentina
         (py "Argentina") (py "  ") view_awaiting H) B))).
  - eexists. split; [vm_compute; reflexivity|]. split; [reflexivity|].
    match goal with |- shown ?v = _ =>
      apply (proj1 (proj2 (blank_query_awaits_input ucd_es wb_argentina
                             (py "Argentina") (py "cobre") v eq_refl)))
    end.
    split; [discriminate | reflexivity].
Defined.

(** A query made of separators only has no terms either, and awaits input
    like a blank one. *)
Lemma separator_query_awaits_input :
  page ucd_es wb_argentina (py "Argentina") (py ",; ,")
  = Rendered view_awaiting.
Proof. vm_compute. reflexivity. Qed.



(** ** Slashes in normalised headers *)

Lemma replace_single (o : N) (new s : pystr) :
  replace [o] new s = flat_map (fun c => if (o =? c)%N then new else [c]) s.
Proof.
  unfold replace. induction s as [|c s IH]; [reflexivity|].
  cbn [replace_from starts_with flat_map length Nat.sub].
  rewrite andb_true_r, IH. destruct (o =? c)%N; reflexivity.
Qed.

(** After [replace("/", " /")] every slash follows a space. *)
Lemma guarded_spaced (s : pystr) (prev : N) :
  guarded prev (replace (py "/") (py " /") s) = true.
Proof.
  change (py "/") with [47%N]. change (py " /") with [32%N; 47%N].
  rewrite replace_single. revert prev.
  induction s as [|c s IH]; intros prev; [reflexivity|].
  cbn [flat_map]. destruct (47 =? c)%N eqn:E.
  - cbn [app guarded]. rewrite IH. reflexivity.
  - cbn [app guarded]. rewrite IH, N.eqb_sym, E. reflexivity.
Qed.

(** [replace("  ", " ")] keeps it so. *)
Lemma guarded_collapsed (s : pystr) (prev : N) :
  guarded prev s = true ->
  guarded prev (replace (py "  ") (py " ") s) = true.
Proof.
  change (py "  ") with [32%N; 32%N]. change (py " ") with [32%N].
  unfold replace.
  enough (G : forall n s prev, length s <= n -> guarded prev s = true ->
                guarded prev (replace_from [32%N; 32%N] [32%N] 0 s) = true)
    by (apply (G (length s)); lia).
  clear s prev. induction n as [|n IH]; intros s prev L H.
  - destruct s; [reflexivity | simpl in L; lia].
  - destruct s as [|c rest]; [reflexivity|].
    cbn [guarded] in H. apply andb_true_iff in H. destruct H as [Hc Hrest].
    cbn [replace_from starts_with length Nat.sub].
    destruct (32 =? c)%N eqn:Ec; cbn [andb].
    + destruct rest as [|c2 rest'].
      * cbn [guarded replace_from]. rewrite Hc. reflexivity.
      * destruct (32 =? c2)%N eqn:Ec2; cbn [andb app].
        -- cbn [replace_from guarded]. apply N.eqb_eq in Ec, Ec2. subst c c2.
           cbn [guarded] in Hrest. apply andb_true_iff in Hrest.
           rewrite IH; [reflexivity | simpl in L |- *; lia | apply Hrest].
        -- cbn [guarded]. rewrite Hc.
           apply IH; [simpl in L |- *; lia | exact Hrest].
    + cbn [guarded]. rewrite Hc. apply IH; [simpl in L |- *; lia | exact Hrest].
Qed.

Lemma normalize_col_guarded (U : UnicodeData) (col : label) :
  guarded 0 (_normalize_col U col) = true.
Proof.
  destruct col as [s|i r]; [|reflexivity].
  unfold _normalize_col. apply guarded_collapsed, guarded_spaced.
Qed.

(** A key in which a slash follows a letter is the key of no header. *)
Lemma unguarded_key_absent (U : UnicodeData) (cols : list label) (v : pystr) :
  guarded 0 v = false -> dict_get str_eqb v (cols_norm U cols) = None.
Proof.
  intros G. rewrite cols_norm_get. apply find_none_iff. intros c _.
  unfold normalizes_to. apply str_eqb_neq. intros ->.
  rewrite normalize_col_guarded in G. discriminate.
Qed.

(** C1 (every declared variant is recognised): the dictionary lists
    [provincia/estado] under [provincia / estado] and [telefono/whatsapp]
    under [telefono], but [_normalize_col] writes a space before every
    slash, so neither is ever a key of [cols_norm], whatever the headers
    are.  A column headed [provincia/estado] normalises to
    [provincia /estado], keeps its header, and the canonical column is
    created empty beside it. *)
Theorem slash_variants_never_match :
  (exists vs, In (py "provincia / estado", vs) COL_ALIASES
              /\ In (py "provincia/estado") vs) /\
  (exists vs, In (py "telefono", vs) COL_ALIASES
              /\ In (py "telefono/whatsapp") vs) /\
  (forall (U : UnicodeData) (cols : list label),
      dict_get str_eqb (py "provincia/estado") (cols_norm U cols) = None /\
      dict_get str_eqb (py "telefono/whatsapp") (cols_norm U cols) = None) /\
  _normalize_col ucd_es (LStr (py "provincia/estado"))
    = py "provincia /estado" /\
  standardize_columns ucd_es (Some df_slash) = Ok out_slash.
Proof.
  split; [eexists; split; [do 5 right; left; reflexivity|simpl; tauto]|].
  split; [eexists; split; [do 2 right; left; reflexivity|simpl; tauto]|].
  split; [|split; vm_compute; reflexivity].
  intros U cols. split; apply unguarded_key_absent; reflexivity.
Qed.

(** ** Which column a target takes *)

Section Choice.
Variable U : UnicodeData.
Variable cols : list label.

Let cn := cols_norm U cols.
Let mapping := build_mapping COL_ALIASES cn.

Lemma mapping_source (c : label) (t : pystr) :
  dict_get label_eqb c mapping = Some t ->
  exists vs, In (t, vs) COL_ALIASES /\ find_variant cn vs = Some c
             /\ In (_normalize_col U c) vs.
Proof.
  intros D. apply build_mapping_get in D. destruct D as [vs [Hin F]].
  exists vs. repeat split; auto.
  apply find_variant_some in F. destruct F as [w [Hw Dw]].
  apply cols_norm_get_some in Dw. destruct Dw as [-> _]. exact Hw.
Qed.

End Choice.

(** The two sheets [Tel, WhatsApp] and [WhatsApp, Tel] have the same keys,
    so the inner loop finds the same column in both, in whatever order the
    variants are scanned: it cannot be the later column in both. *)
Lemma scan_finds_same_column (variants : list pystr) :
  find_variant
    (cols_norm ucd_es [LStr (py "Tel"); LStr (py "WhatsApp")]) variants =
  find_variant
    (cols_norm ucd_es [LStr (py "WhatsApp"); LStr (py "Tel")]) variants.
Proof.
  change (cols_norm ucd_es [LStr (py "Tel"); LStr (py "WhatsApp")])
    with [(py "tel", LStr (py "Tel")); (py "whatsapp", LStr (py "WhatsApp"))].
  change (cols_norm ucd_es [LStr (py "WhatsApp"); LStr (py "Tel")])
    with [(py "whatsapp", LStr (py "WhatsApp")); (py "tel", LStr (py "Tel"))].
  induction variants as [|v variants IH]; [reflexivity|].
  cbn [find_variant dict_get]. rewrite IH.
  destruct (str_eqb v (py "tel")) eqn:E1;
    destruct (str_eqb v (py "whatsapp")) eqn:E2; try reflexivity.
  apply str_eqb_eq in E1, E2. subst v. discriminate.
Qed.

Lemma later_column_not_favoured (variants : list pystr) :
  ~ (find_variant
       (cols_norm ucd_es [LStr (py "Tel"); LStr (py "WhatsApp")]) variants
     = Some (LStr (py "WhatsApp")) /\
     find_variant
       (cols_norm ucd_es [LStr (py "WhatsApp"); LStr (py "Tel")]) variants
     = Some (LStr (py "Tel"))).
Proof.
  rewrite scan_finds_same_column. intros [H1 H2]. rewrite H1 in H2.
  discriminate.
Qed.




(** * Further properties of the code *)

(** ** Header keys *)

Lemma guarded_slash_split (prev : N) (l r : pystr) :
  guarded prev (l ++ 47%N :: r) = true ->
  match l with
  | [] => prev = 32%N
  | _ :: _ => exists l', l = l' ++ [32%N]
  end.
Proof.
  revert prev; induction l as [|c l IH]; intros prev; cbn [app guarded].
  - rewrite andb_true_iff. intros [H _]. cbn in H. apply N.eqb_eq. exact H.
  - rewrite andb_true_iff. intros [_ H]. specialize (IH c H).
    destruct l as [|d l].
    + subst c. exists []. reflexivity.
    + destruct IH as [l' E]. exists (c :: l'). rewrite E. reflexivity.
Qed.

(** X1 (slashes in keys): in the key [_normalize_col] gives to a header,
    every slash comes right after a space; a key never starts with a
    slash. *)
Theorem normalize_col_slash_after_space (U : UnicodeData) (h : label)
  (l r : pystr) :
  _normalize_col U h = l ++ [47%N] ++ r -> exists l', l = l' ++ [32%N].
Proof.
  intros E. pose proof (normalize_col_guarded U h) as G. rewrite E in G.
  apply guarded_slash_split in G. destruct l; [discriminate | exact G].
Qed.

(** The key of [Razon Social/Nombre] is [razon social /nombre]. *)
Lemma normalize_col_slash_after_space_witness :
  _normalize_col ucd_es (LStr (py "Razon Social/Nombre"))
    = py "razon social " ++ [47%N] ++ py "nombre" /\
  exists l', py "razon social " = l' ++ [32%N].
Proof.
  split; [vm_compute; reflexivity|].
  exact (normalize_col_slash_after_space ucd_es
           (LStr (py "Razon Social/Nombre")) (py "razon social ")
           (py "nombre") eq_refl).
Defined.

Lemma in_replace_from (old new : pystr) (k : nat) (s : pystr) (c : N) :
  In c (replace_from old new k s) -> In c s \/ In c new.
Proof.
  revert k; induction s as [|x s IH]; intros k; cbn [replace_from]; auto.
  destruct k as [|k].
  - destruct (starts_with old (x :: s)).
    + intros H. apply in_app_or in H. destruct H as [H|H]; auto.
      destruct (IH _ H); auto. left; right; assumption.
    + intros [<-|H]; [left; left; reflexivity|].
      destruct (IH _ H); auto. left; right; assumption.
  - intros H. destruct (IH _ H); auto. left; right; assumption.
Qed.

Lemma in_replace (old new s : pystr) (c : N) :
  old <> [] -> In c (replace old new s) -> In c s \/ In c new.
Proof.
  destruct old as [|o old]; [congruence|]. intros _. apply in_replace_from.
Qed.

Lemma replace_single_removes (o : N) (new s : pystr) :
  ~ In o new -> ~ In o (replace [o] new s).
Proof.
  intros Hn. rewrite replace_single. intros H.
  apply in_flat_map in H. destruct H as [c [_ H]].
  destruct (o =? c)%N eqn:E; [auto|].
  destruct H as [<-|[]]. rewrite N.eqb_refl in E. discriminate.
Qed.

(** X2 (accents in keys): whatever the header and the Unicode data, the
    key holds none of the five accented vowels. *)
Theorem normalize_col_no_accented_vowel (U : UnicodeData) (h : label) :
  Forall (fun c => ~ In c accented_vowels) (_normalize_col U h).
Proof.
  destruct h as [col|i r]; [|constructor].
  rewrite Forall_forall. intros c Hc Hacc. unfold _normalize_col in Hc.
  set (c0 := lower U (strip U col)) in Hc.
  set (c1 := replace [225%N] (py "a") c0) in Hc.
  set (c2 := replace [233%N] (py "e") c1) in Hc.
  set (c3 := replace [237%N] (py "i") c2) in Hc.
  set (c4 := replace [243%N] (py "o") c3) in Hc.
  set (c5 := replace [250%N] (py "u") c4) in Hc.
  assert (H5 : In c c5).
  { apply in_replace in Hc; [|discriminate]. destruct Hc as [Hc|Hc].
    - apply in_replace in Hc; [|discriminate]. destruct Hc as [Hc|Hc]; auto.
      exfalso. vm_compute in Hc, Hacc. intuition congruence.
    - exfalso. vm_compute in Hc, Hacc. intuition congruence. }
  assert (N5 : c <> 250%N).
  { intros ->. revert H5. apply replace_single_removes.
    vm_compute. intuition congruence. }
  assert (H4 : In c c4).
  { apply in_replace in H5; [|discriminate]. destruct H5 as [H|H]; auto.
    exfalso. vm_compute in H, Hacc. intuition congruence. }
  assert (N4 : c <> 243%N).
  { intros ->. revert H4. apply replace_single_removes.
    vm_compute. intuition congruence. }
  assert (H3 : In c c3).
  { apply in_replace in H4; [|discriminate]. destruct H4 as [H|H]; auto.
    exfalso. vm_compute in H, Hacc. intuition congruence. }
  assert (N3 : c <> 237%N).
  { intros ->. revert H3. apply replace_single_removes.
    vm_compute. intuition congruence. }
  assert (H2 : In c c2).
  { apply in_replace in H3; [|discriminate]. destruct H3 as [H|H]; auto.
    exfalso. vm_compute in H, Hacc. intuition congruence. }
  assert (N2 : c <> 233%N).
  { intros ->. revert H2. apply replace_single_removes.
    vm_compute. intuition congruence. }
  assert (H1 : In c c1).
  { apply in_replace in H2; [|discriminate]. destruct H2 as [H|H]; auto.
    exfalso. vm_compute in H, Hacc. intuition congruence. }
  assert (N1 : c <> 225%N).
  { intros ->. revert H1. apply replace_single_removes.
    vm_compute. intuition congruence. }
  vm_compute in Hacc. intuition congruence.
Qed.

(** ** Surrounding whitespace *)

Section Surrounding.
Variable U : UnicodeData.

Let blank (s : pystr) : Prop := Forall (fun c => isspace U c = true) s.

Lemma lstrip_app_blank (a s : pystr) :
  blank a -> lstrip U (a ++ s) = lstrip U s.
Proof.
  induction 1 as [|c a Hc _ IH]; [reflexivity|].
  cbn [app lstrip]. rewrite Hc. exact IH.
Qed.

Lemma lstrip_nil_blank (s : pystr) : lstrip U s = [] -> blank s.
Proof.
  induction s as [|c s IH]; [constructor|]. cbn [lstrip].
  destruct (isspace U c) eqn:Hc; [|discriminate].
  intros H. constructor; [exact Hc | apply IH; exact H].
Qed.

Lemma lstrip_app_kept (s b : pystr) :
  lstrip U s <> [] -> lstrip U (s ++ b) = lstrip U s ++ b.
Proof.
  induction s as [|c s IH]; [intros H; elim H; reflexivity|].
  cbn [app lstrip]. destruct (isspace U c); auto.
Qed.

Lemma strip_surrounded (a s b : pystr) :
  blank a -> blank b -> strip U (a ++ s ++ b) = strip U s.
Proof.
  intros Ha Hb. unfold strip. rewrite lstrip_app_blank by exact Ha.
  destruct (lstrip U s) as [|c t] eqn:E.
  - rewrite lstrip_all_space; [reflexivity|].
    apply Forall_app. split; [apply lstrip_nil_blank; exact E | exact Hb].
  - rewrite lstrip_app_kept by (rewrite E; discriminate). rewrite E.
    unfold rstrip. rewrite rev_app_distr, lstrip_app_blank; [reflexivity|].
    apply Forall_rev. exact Hb.
Qed.
End Surrounding.

(** X3 (blanks around a header): whitespace before and after a header does
    not change its key, so it does not change which target the column is
    taken for. *)
Theorem normalize_col_ignores_surrounding_whitespace
  (U : UnicodeData) (a s b : pystr) :
  Forall (fun c => isspace U c = true) a ->
  Forall (fun c => isspace U c = true) b ->
  _normalize_col U (LStr (a ++ s ++ b)) = _normalize_col U (LStr s).
Proof.
  intros Ha Hb. unfold _normalize_col.
  rewrite (strip_surrounded U a s b Ha Hb). reflexivity.
Qed.

(** A tab before and two spaces after [Tel]. *)
Lemma normalize_col_ignores_surrounding_whitespace_witness :
  _normalize_col ucd_es (LStr ([9%N] ++ py "Tel" ++ py "  "))
  = _normalize_col ucd_es (LStr (py "Tel")).
Proof.
  apply (normalize_col_ignores_surrounding_whitespace ucd_es
           [9%N] (py "Tel") (py "  ")); repeat constructor.
Defined.

(** X4 (blanks around a text): whitespace before and after a text changes
    neither its normal form, nor the terms it gives as a query, nor what
    it matches as a field. *)
Theorem text_ignores_surrounding_whitespace
  (U : UnicodeData) (a s b : pystr) :
  Forall (fun c => isspace U c = true) a ->
  Forall (fun c => isspace U c = true) b ->
  normalize_text U (VStr (a ++ s ++ b)) = normalize_text U (VStr s) /\
  tokenize_query U (a ++ s ++ b) = tokenize_query U s /\
  forall ts, match_row U (VStr (a ++ s ++ b)) ts = match_row U (VStr s) ts.
Proof.
  intros Ha Hb.
  assert (N : normalize_text U (VStr (a ++ s ++ b))
              = normalize_text U (VStr s)).
  { unfold normalize_text. rewrite (strip_surrounded U a s b Ha Hb).
    reflexivity. }
  split; [exact N|]. split.
  - unfold tokenize_query. rewrite N. reflexivity.
  - intros ts.
    change (match_row U (field_value (Some (a ++ s ++ b))) ts
            = match_row U (field_value (Some s)) ts).
    rewrite !match_row_field. cbn [field_value]. rewrite N. reflexivity.
Qed.

(** A query typed with a space before and a line break after. *)
Lemma text_ignores_surrounding_whitespace_witness :
  tokenize_query ucd_es (py " " ++ py "malta, tapas" ++ [10%N])
  = tokenize_query ucd_es (py "malta, tapas").
Proof.
  apply (text_ignores_surrounding_whitespace ucd_es
           (py " ") (py "malta, tapas") [10%N]); repeat constructor.
Defined.

(** X5 (canonical ordering): the reordering of combining characters that
    NFKD performs never shows in the normal form, which is the case fold of
    the non-combining characters of the decomposed, trimmed text. *)
Theorem normalize_text_without_reordering (U : UnicodeData) (v : value) :
  normalize_text U v =
  casefold U
    (filter (starter U) (flat_map (decomposition U) (strip U (coerce v)))).
Proof. apply normalize_text_decomposed. Qed.

(** ** The tokenizer *)

Section Tokens.
Variable sep : N -> bool.

Lemma split_from_clean (in_sep : bool) (acc s : pystr) :
  Forall (fun c => sep c = false) acc ->
  Forall (Forall (fun c => sep c = false)) (split_from sep in_sep acc s).
Proof.
  revert in_sep acc; induction s as [|c s IH]; intros in_sep acc Hacc.
  - cbn [split_from]. constructor; [|constructor].
    apply Forall_rev. exact Hacc.
  - cbn [split_from]. destruct (sep c) eqn:Hc.
    + destruct in_sep.
      * apply IH. constructor.
      * constructor; [apply Forall_rev; exact Hacc | apply IH; constructor].
    + apply IH. constructor; assumption.
Qed.

Lemma split_from_concat (in_sep : bool) (acc s : pystr) :
  (in_sep = true -> acc = []) ->
  concat (split_from sep in_sep acc s)
  = rev acc ++ filter (fun c => negb (sep c)) s.
Proof.
  revert in_sep acc; induction s as [|c s IH]; intros in_sep acc Hacc.
  - cbn. rewrite app_nil_r. reflexivity.
  - cbn [split_from filter]. destruct (sep c) eqn:Hc; cbn [negb].
    + destruct in_sep.
      * rewrite (Hacc eq_refl). apply IH. reflexivity.
      * cbn [concat]. rewrite IH by reflexivity. reflexivity.
    + rewrite IH by discriminate. cbn [rev]. rewrite <- app_assoc.
      reflexivity.
Qed.

Lemma split_from_substring (in_sep : bool) (acc s p : pystr) :
  In p (split_from sep in_sep acc s) ->
  exists l r, rev acc ++ s = l ++ p ++ r.
Proof.
  revert in_sep acc; induction s as [|c s IH]; intros in_sep acc.
  - cbn [split_from]. intros [<-|[]]. exists [], []. reflexivity.
  - cbn [split_from].
    assert (T : In p (split_from sep true [] s) ->
                exists l r, rev acc ++ c :: s = l ++ p ++ r).
    { intros H. destruct (IH _ _ H) as [l [r E]]. cbn in E.
      exists (rev acc ++ c :: l), r. rewrite E, <- app_assoc. reflexivity. }
    destruct (sep c).
    + destruct in_sep; [exact T|].
      intros [<-|H]; [|exact (T H)].
      exists [], (c :: s). reflexivity.
    + intros H. destruct (IH _ _ H) as [l [r E]]. cbn [rev] in E.
      rewrite <- app_assoc in E. exists l, r. exact E.
Qed.
End Tokens.

Lemma concat_filter_nonempty (l : list pystr) :
  concat (filter nonempty l) = concat l.
Proof.
  induction l as [|[|c p] l IH]; cbn; auto. rewrite IH. reflexivity.
Qed.

(** X6 (shape of the terms): a term is never empty and never holds a
    separator -- whitespace, comma, semicolon or zero-width space. *)
Theorem tokenize_query_terms_clean (U : UnicodeData) (q : pystr) :
  Forall (fun t => t <> [] /\ Forall (fun c => is_separator U c = false) t)
    (tokenize_query U q).
Proof.
  unfold tokenize_query, re_split. rewrite Forall_forall. intros t Ht.
  apply filter_In in Ht. destruct Ht as [Ht Hn]. split.
  - destruct t; [discriminate | discriminate].
  - pose proof (split_from_clean (is_separator U) false []
                  (normalize_text U (VStr q)) (Forall_nil _)) as C.
    rewrite Forall_forall in C. exact (C t Ht).
Qed.

(** X7 (nothing but separators is dropped): the terms, put end to end, are
    the normal form of the query without its separators. *)
Theorem tokenize_query_concat (U : UnicodeData) (q : pystr) :
  concat (tokenize_query U q)
  = filter (fun c => negb (is_separator U c)) (normalize_text U (VStr q)).
Proof.
  unfold tokenize_query, re_split.
  rewrite concat_filter_nonempty, split_from_concat by discriminate.
  reflexivity.
Qed.

Lemma tokenize_query_substrings (U : UnicodeData) (q t : pystr) :
  In t (tokenize_query U q) ->
  exists l r, normalize_text U (VStr q) = l ++ t ++ r.
Proof.
  unfold tokenize_query, re_split. intros H. apply filter_In in H.
  destruct H as [H _]. apply split_from_substring in H. exact H.
Qed.

(** X8 (a query finds its own text): a field whose normal form holds the
    normal form of the query matches every term of the query; in
    particular a field equal to the query matches it. *)
Theorem query_text_matches (U : UnicodeData) (f : option pystr)
  (q l r : pystr) :
  normalize_text U (field_value f) = l ++ normalize_text U (VStr q) ++ r ->
  match_row U (field_value f) (tokenize_query U q) = true.
Proof.
  intros E. rewrite match_row_field, forallb_forall. intros t Ht.
  apply contains_spec. apply tokenize_query_substrings in Ht.
  destruct Ht as [l' [r' E']]. rewrite E, E'.
  exists (l ++ l'), (r' ++ r). rewrite <- !app_assoc. reflexivity.
Qed.

(** The query "Tapas, MALTA" on the products of the first scenario. *)
Lemma query_text_matches_witness :
  match_row ucd_es (VStr (py "Latas, tapas, malta"))
    (tokenize_query ucd_es (py "Tapas, MALTA")) = true.
Proof.
  apply (query_text_matches ucd_es (Some (py "Latas, tapas, malta"))
           (py "Tapas, MALTA") (py "latas, ") []).
  vm_compute. reflexivity.
Defined.

(** ** The matcher *)

Lemma contains_trans (p t t' : pystr) :
  contains p t = true -> contains t t' = true -> contains p t' = true.
Proof.
  rewrite !contains_spec. intros [l [r ->]] [l' [r' ->]].
  exists (l ++ l'), (r' ++ r). rewrite <- !app_assoc. reflexivity.
Qed.

Lemma contains_refl (t : pystr) : contains t t = true.
Proof. apply contains_spec. exists [], []. rewrite app_nil_r. reflexivity. Qed.

(** X9 (weaker term lists): if a field matches a list of terms, it matches
    every list whose terms each occur inside one of them; so dropping,
    repeating, reordering or shortening terms never loses a match. *)
Theorem match_row_weaker_terms (U : UnicodeData) (f : value)
  (ts ts' : list pystr) :
  (forall t', In t' ts' -> exists t, In t ts /\ contains t t' = true) ->
  match_row U f ts = true -> match_row U f ts' = true.
Proof.
  unfold match_row. rewrite !forallb_forall. intros W H t' Ht'.
  destruct (W t' Ht') as [t [Ht C]].
  exact (contains_trans _ t t' (H t Ht) C).
Qed.

(** The terms [lata] and [tapa], inside [latas] and [tapas]. *)
Lemma match_row_weaker_terms_witness :
  match_row ucd_es (VStr (py "Latas, tapas, malta")) [py "latas"; py "tapas"]
    = true /\
  match_row ucd_es (VStr (py "Latas, tapas, malta")) [py "tapa"; py "lata"]
    = true.
Proof.
  assert (H : match_row ucd_es (VStr (py "Latas, tapas, malta"))
                [py "latas"; py "tapas"] = true) by (vm_compute; reflexivity).
  split; [exact H|].
  apply (match_row_weaker_terms ucd_es (VStr (py "Latas, tapas, malta"))
           [py "latas"; py "tapas"] [py "tapa"; py "lata"]); [|exact H].
  intros t' [<-|[<-|[]]].
  - exists (py "tapas"). split; [right; left; reflexivity|].
    vm_compute. reflexivity.
  - exists (py "latas"). split; [left; reflexivity|].
    vm_compute. reflexivity.
Defined.

Lemma contains_nil (t : pystr) : contains [] t = negb (nonempty t).
Proof. destruct t; reflexivity. Qed.

(** X10 (fields without text): a field that is null, a blank string, or a
    false object such as the number zero is matched as the empty text,
    which holds no term but the empty one; as terms are never empty, such
    a row matches no query that has terms. *)
Theorem match_row_blank_field (U : UnicodeData) (f : value)
  (ts : list pystr) :
  (f = VNone \/
   (exists s, f = VStr s /\ Forall (fun c => isspace U c = true) s) \/
   (exists r, f = VObj false r)) ->
  match_row U f ts = forallb (fun t => negb (nonempty t)) ts.
Proof.
  intros H. unfold match_row.
  assert (E : normalize_text U
                (if truthy_value f then f else VStr []) = []).
  { destruct H as [->|[[s [-> B]]|[r ->]]]; try reflexivity.
    destruct s as [|c s]; [reflexivity|]. cbn [truthy_value].
    apply normalize_text_blank. exact B. }
  rewrite E. induction ts as [|t ts IH]; [reflexivity|].
  cbn [forallb]. rewrite contains_nil, IH. reflexivity.
Qed.

(** A row whose products are two spaces, asked for [malta]. *)
Lemma match_row_blank_field_witness :
  match_row ucd_es (VStr (py "  ")) [py "malta"] = false.
Proof.
  rewrite (match_row_blank_field ucd_es (VStr (py "  ")) [py "malta"]).
  - reflexivity.
  - right. left. exists (py "  "). split; [reflexivity|repeat constructor].
Defined.

(** ** Outcomes of the aliaser *)

Lemma clean_column_raise (U : UnicodeData) (df : DataFrame) c e :
  In c (columns df) -> clean_column U df c = Raise e -> e = AttributeError.
Proof.
  intros Hin. unfold clean_column, getitem.
  pose proof (positions_from_in c (columns df) 0 Hin) as P.
  destruct (positions_from c (columns df) 0) as [|i [|j ps]];
    [congruence | discriminate |].
  cbn [bind]. intros H; injection H as <-. reflexivity.
Qed.

Lemma for_each_clean_raise (U : UnicodeData) cs (df : DataFrame) e :
  (forall c, In c cs -> In c (columns df)) ->
  for_each cs (clean_column U) df = Raise e -> e = AttributeError.
Proof.
  revert df; induction cs as [|c cs IH]; intros df Hcs; cbn [for_each].
  - discriminate.
  - destruct (clean_column U df c) as [df'|e'] eqn:E; cbn [bind].
    + apply IH. intros x Hx.
      rewrite (proj1 (clean_column_inv U df c df' E)). apply Hcs.
      right; exact Hx.
    + intros H; injection H as <-.
      apply (clean_column_raise U df c e'); [|exact E].
      apply Hcs; left; reflexivity.
Qed.



(** X12 (what a returned table looks like): a table the aliaser returns
    for a table with rows has the nine canonical columns, no header twice,
    one cell per column in every row, and only strings without surrounding
    whitespace as cells. *)
Theorem standardize_columns_returns_schema
  (U : UnicodeData) (df out : DataFrame) :
  rectangular df -> empty df = false ->
  standardize_columns U (Some df) = Ok out ->
  (forall n, In n CANONICAL -> In (LStr n) (columns out))
  /\ NoDup (columns out)
  /\ rectangular out
  /\ Forall (Forall (trimmed U)) (rows out).
Proof. apply standardize_columns_schema. Qed.

(** The standardized sheet of the first scenario. *)
Lemma standardize_columns_returns_schema_witness :
  NoDup (columns out_argentina) /\ rectangular out_argentina.
Proof.
  assert (H : standardize_columns ucd_es (Some df_argentina) = Ok out_argentina)
    by (vm_compute; reflexivity).
  assert (R : rectangular df_argentina) by (repeat constructor).
  destruct (standardize_columns_returns_schema ucd_es df_argentina
              out_argentina R eq_refl H) as [_ [ND [Ro _]]].
  split; [exact ND | exact Ro].
Defined.

(** ** What the renaming does to a header *)

Lemma aliases_never_empty_key t vs :
  In (t, vs) COL_ALIASES -> ~ In [] vs.
Proof.
  intros H Hv. alias_cases H; simpl in Hv;
    repeat (destruct Hv as [Hv|Hv]; [vm_compute in Hv; discriminate|]);
    exact Hv.
Qed.

(** X13 (headers the dictionary does not know): a column whose key is no
    declared variant keeps its header -- so does every header that is not a
    string -- and a header that is changed becomes one of the nine
    canonical names. *)
Theorem unknown_header_kept (U : UnicodeData) (cols : list label) :
  let mapping := build_mapping COL_ALIASES (cols_norm U cols) in
  (forall c,
      (forall t vs, In (t, vs) COL_ALIASES -> ~ In (_normalize_col U c) vs) ->
      new_label mapping c = c) /\
  (forall i r, new_label mapping (LOther i r) = LOther i r) /\
  (forall c, new_label mapping c = c \/
             exists t, In t CANONICAL /\ new_label mapping c = LStr t).
Proof.
  intros mapping.
  assert (K : forall c,
             (forall t vs, In (t, vs) COL_ALIASES ->
                           ~ In (_normalize_col U c) vs) ->
             new_label mapping c = c).
  { intros c H. unfold new_label.
    destruct (dict_get label_eqb c mapping) as [t|] eqn:D; [|reflexivity].
    exfalso. apply mapping_source in D. destruct D as [vs [Hin [_ Hv]]].
    exact (H t vs Hin Hv). }
  split; [exact K|]. split.
  - intros i r. apply K. intros t vs Hin. cbn [_normalize_col].
    exact (aliases_never_empty_key t vs Hin).
  - intros c. unfold new_label.
    destruct (dict_get label_eqb c mapping) as [t|] eqn:D; [|left; reflexivity].
    right. exists t. split; [|reflexivity].
    apply mapping_source in D. destruct D as [vs [Hin _]].
    exact (aliases_targets t vs Hin).
Qed.

(** In the sheet [Tel, WhatsApp] a header [Notas] would stay. *)
Lemma unknown_header_kept_witness :
  new_label
    (build_mapping COL_ALIASES (cols_norm ucd_es (columns df_tel_whatsapp)))
    (LStr (py "Notas")) = LStr (py "Notas").
Proof.
  apply (proj1 (unknown_header_kept ucd_es (columns df_tel_whatsapp))).
  intros t vs H Hv. alias_cases H; vm_compute in Hv; intuition discriminate.
Defined.

(** X14 (one source per target): two different headers are never renamed
    to the same canonical name. *)
Theorem renaming_sources_distinct (U : UnicodeData) (cols : list label)
  (a b : label) (t : pystr) :
  let mapping := build_mapping COL_ALIASES (cols_norm U cols) in
  a <> b ->
  dict_get label_eqb a mapping = Some t ->
  dict_get label_eqb b mapping <> Some t.
Proof.
  intros mapping Hab Ha Hb. apply Hab.
  apply mapping_source in Ha. destruct Ha as [vs [Hin [Fa Va]]].
  apply mapping_source in Hb. destruct Hb as [vs' [Hin' [Fb _]]].
  destruct (aliases_canonical_first t vs Hin) as [r E].
  destruct (aliases_canonical_first t vs' Hin') as [r' E'].
  assert (Hv : In t vs) by (rewrite E; left; reflexivity).
  assert (Hv' : In t vs') by (rewrite E'; left; reflexivity).
  destruct (aliases_disjoint t vs t vs' t Hin Hin' Hv Hv') as [_ <-].
  congruence.
Qed.

(** In the sheet [Tel, WhatsApp], [Tel] is renamed to [telefono], so
    [WhatsApp] is not. *)
Lemma renaming_sources_distinct_witness :
  dict_get label_eqb (LStr (py "WhatsApp"))
    (build_mapping COL_ALIASES (cols_norm ucd_es (columns df_tel_whatsapp)))
  <> Some (py "telefono").
Proof.
  apply (renaming_sources_distinct ucd_es (columns df_tel_whatsapp)
           (LStr (py "Tel")) (LStr (py "WhatsApp")) (py "telefono")).
  - vm_compute. discriminate.
  - vm_compute. reflexivity.
Defined.

(** ** The search and the page *)

Lemma for_each_clean_rows (U : UnicodeData) cs (df out : DataFrame) :
  for_each cs (clean_column U) df = Ok out ->
  length (rows out) = length (rows df).
Proof.
  revert df; induction cs as [|c cs IH]; intros df; cbn [for_each].
  - intros H; injection H as <-. reflexivity.
  - destruct (clean_column U df c) as [df'|e'] eqn:E; cbn [bind];
      [|discriminate].
    intros H. rewrite (IH _ H). unfold clean_column in E.
    destruct (getitem df c) as [[i|ps]|]; try discriminate.
    cbn [bind] in E. injection E as <-. cbn [rows]. apply length_map.
Qed.

Lemma standardize_columns_headers (U : UnicodeData) (df out : DataFrame) :
  empty df = false -> standardize_columns U (Some df) = Ok out ->
  columns out = final_headers U (columns df) /\
  length (rows out) = length (rows df).
Proof.
  unfold standardize_columns, standardize_columns_with. intros -> H.
  rewrite (proj1 (for_each_clean_inv U _ _ _ H)).
  rewrite (for_each_clean_rows U _ _ _ H).
  rewrite ensure_columns_spec. cbn [columns rows]. split; [reflexivity|].
  rewrite length_map. reflexivity.
Qed.

Lemma getitem_unique (df : DataFrame) (c : label) :
  NoDup (columns df) -> In c (columns df) ->
  exists i, getitem df c = Ok (Series i).
Proof.
  intros ND Hin. apply in_split in Hin. destruct Hin as [l1 [l2 E]].
  unfold getitem. rewrite E in ND |- *. rewrite (positions_nodup l1 c l2 ND).
  eexists. reflexivity.
Qed.

Lemma loc_positions_total (cols : list label) (names : list pystr) :
  (forall n, In n names -> In (LStr n) cols) ->
  exists ps, loc_positions cols names = Ok ps.
Proof.
  induction names as [|n names IH]; intros H; cbn [loc_positions].
  - eexists. reflexivity.
  - destruct IH as [rest E]; [intros m Hm; apply H; right; exact Hm|].
    pose proof (positions_from_in (LStr n) cols 0
                  (H n (or_introl eq_refl))) as P.
    destruct (positions_from (LStr n) cols 0) as [|i l]; [congruence|].
    rewrite E. eexists. reflexivity.
Qed.

Lemma search_total (U : UnicodeData) (df : DataFrame) (ts : list pystr) :
  NoDup (columns df) ->
  (forall n, In n CANONICAL -> In (LStr n) (columns df)) ->
  exists res, search U df ts = Ok res.
Proof.
  intros ND C. unfold search. destruct ts as [|t ts]; cbn [nonempty].
  - eexists. reflexivity.
  - destruct (getitem_unique df (LStr (py "productos")) ND) as [i G].
    { apply C. unfold CANONICAL. apply in_or_app. right. left. reflexivity. }
    rewrite G. cbn [bind]. unfold loc.
    destruct (loc_positions_total (columns df) DISPLAY_ORDER) as [ps L].
    { intros n Hn. apply C. unfold CANONICAL. apply in_or_app. left. exact Hn. }
    rewrite L. eexists. reflexivity.
Qed.

Lemma standardized_searchable (U : UnicodeData) (raw df : DataFrame) :
  empty raw = false -> standardize_columns U (Some raw) = Ok df ->
  NoDup (columns df) /\
  forall n, In n CANONICAL -> In (LStr n) (columns df).
Proof.
  intros E S. split; [exact (standardize_columns_nodup U raw df E S)|].
  intros n Hn. rewrite (proj1 (standardize_columns_headers U raw df E S)).
  unfold final_headers. apply (proj1 (missing_spec CANONICAL _)). exact Hn.
Qed.

(** X15 (the search on a standardized sheet): on the table the aliaser
    returns for a sheet with rows, the search never fails; it returns the
    eight display columns, no more rows than the sheet has, and eight cells
    in every row. *)
Theorem search_standardized (U : UnicodeData) (raw df : DataFrame)
  (ts : list pystr) :
  empty raw = false -> standardize_columns U (Some raw) = Ok df ->
  exists res,
    search U df ts = Ok res /\
    columns res = map LStr DISPLAY_ORDER /\
    length (rows res) <= length (rows raw) /\
    Forall (fun r => length r = 8) (rows res).
Proof.
  intros E S. destruct (standardized_searchable U raw df E S) as [ND C].
  destruct (search_total U df ts ND C) as [res R]. exists res.
  split; [exact R|]. destruct ts as [|t ts].
  - injection R as <-. cbn. repeat split; [lia | constructor].
  - destruct (search_terms U df res (t :: ts) ltac:(discriminate) ND R)
      as [ip [ps [_ [F [Cr Rw]]]]].
    split; [exact Cr|]. rewrite Rw. split.
    + rewrite length_map.
      rewrite <- (proj2 (standardize_columns_headers U raw df E S)).
      apply filter_length_le.
    + rewrite Forall_forall. intros r Hr. apply in_map_iff in Hr.
      destruct Hr as [r0 [<- _]]. rewrite length_map.
      apply Forall2_length in F. exact F.
Qed.

(** The query [malta] on the sheet of the first scenario. *)
Lemma search_standardized_witness :
  exists res,
    search ucd_es out_argentina [py "malta"] = Ok res /\
    columns res = map LStr DISPLAY_ORDER /\
    length (rows res) <= length (rows df_argentina) /\
    Forall (fun r => length r = 8) (rows res).
Proof.
  apply (search_standardized ucd_es df_argentina out_argentina [py "malta"]).
  - reflexivity.
  - vm_compute. reflexivity.
Defined.

(** X16 (what can escape the page): the only exceptions the page lets
    through are the [AttributeError] of the aliaser and the
    [UnicodeEncodeError] of the export; the search on the standardized
    sheet raises neither [KeyError] nor [ValueError]. *)
Theorem page_uncaught (U : UnicodeData) (workbook : list (pystr * DataFrame))
  (selected_country q : pystr) (e : exn) :
  page U workbook selected_country q = Uncaught e ->
  (e = AttributeError /\
   exists raw, dict_get str_eqb selected_country workbook = Some raw /\
               standardize_columns U (Some raw) = Raise AttributeError) \/
  e = UnicodeEncodeError.
Proof.
  unfold page. destruct workbook as [|sheet others]; [discriminate|].
  destruct (dict_get str_eqb selected_country (sheet :: others)) as [raw|];
    [|discriminate].
  destruct (empty raw) eqn:E; [discriminate|].
  destruct (standardize_columns U (Some raw)) as [df|e0] eqn:S.
  - destruct (standardized_searchable U raw df E S) as [ND C].
    destruct (search_total U df (query_terms U q) ND C) as [res R].
    rewrite R. unfold download_of.
    destruct (negb (empty res)); [|discriminate].
    unfold encode_utf8_sig.
    destruct (utf8_encode (to_csv res)) as [body|e1] eqn:Enc; [discriminate|].
    cbn [bind]. intros H; injection H as <-. right.
    clear - Enc. revert e1 Enc. generalize (to_csv res) as s.
    induction s as [|c s IH]; intros e1; cbn [utf8_encode]; [discriminate|].
    destruct (utf8_char c) as [b|e2] eqn:Ec; cbn [bind].
    + destruct (utf8_encode s) as [bs|e3]; cbn [bind]; [discriminate|].
      intros H; injection H as <-. apply (IH e3). reflexivity.
    + intros H; injection H as <-. unfold utf8_char in Ec.
      repeat match type of Ec with
             | (if ?b then _ else _) = _ => destruct b
             end; try discriminate; injection Ec as <-; reflexivity.
  - intros H; injection H as <-.
    assert (e0 = AttributeError).
    { unfold standardize_columns, standardize_columns_with in S.
      rewrite E in S.
      apply (for_each_clean_raise U _ _ e0 (fun c H => H) S). }
    subst e0. left. split; [reflexivity|]. exists raw. auto.
Qed.

(** a workbook whose sheet has the headers [nombre] and [Nombre] *)
Lemma page_uncaught_witness :
  page ucd_es [(py "Chile", df_two_nombres)] (py "Chile") (py "malta")
    = Uncaught AttributeError /\
  ((AttributeError = AttributeError /\
    exists raw,
      dict_get str_eqb (py "Chile") [(py "Chile", df_two_nombres)] = Some raw /\
      standardize_columns ucd_es (Some raw) = Raise AttributeError) \/
   AttributeError = UnicodeEncodeError).
Proof.
  assert (H : page ucd_es [(py "Chile", df_two_nombres)] (py "Chile")
                (py "malta") = Uncaught AttributeError)
    by (vm_compute; reflexivity).
  split; [exact H|].
  exact (page_uncaught ucd_es [(py "Chile", df_two_nombres)] (py "Chile")
           (py "malta") AttributeError H).
Defined.



Lemma query_terms_tokenize (U : UnicodeData) (q : pystr) :
  query_terms U q = tokenize_query U q.
Proof. destruct q; reflexivity. Qed.

(** X18 (queries with the same normal form): two queries that normalise
    to the same text -- differing in case, accents or surrounding blanks
    only -- give the same page. *)
Theorem page_depends_on_normal_form (U : UnicodeData)
  (workbook : list (pystr * DataFrame)) (selected_country q q' : pystr) :
  normalize_text U (VStr q) = normalize_text U (VStr q') ->
  page U workbook selected_country q = page U workbook selected_country q'.
Proof.
  intros E. unfold page. rewrite !query_terms_tokenize.
  unfold tokenize_query. rewrite E. reflexivity.
Qed.

(** The queries [MALTA] and [malta] on the sheet of the first scenario. *)
Lemma page_depends_on_normal_form_witness :
  page ucd_es wb_argentina (py "Argentina") (py "MALTA")
  = page ucd_es wb_argentina (py "Argentina") (py "malta").
Proof.
  apply (page_depends_on_normal_form ucd_es wb_argentina (py "Argentina")
           (py "MALTA") (py "malta")).
  vm_compute. reflexivity.
Defined.

(** ** Encoding the export *)

Lemma utf8_char_scalar (c : N) :
  is_scalar c = true -> exists b, utf8_char c = Ok b.
Proof.
  unfold is_scalar, utf8_char. intros H.
  destruct (c <? 128)%N eqn:E1; [eexists; reflexivity|].
  destruct (c <? 2048)%N eqn:E2; [eexists; reflexivity|].
  destruct (c <? 65536)%N eqn:E3.
  - destruct ((55296 <=? c) && (c <=? 57343))%N eqn:E4;
      [|eexists; reflexivity].
    exfalso. apply andb_true_iff in E4. destruct E4 as [A B].
    apply N.leb_le in A, B. apply orb_true_iff in H.
    destruct H as [H|H].
    + apply N.ltb_lt in H. lia.
    + apply andb_true_iff in H. destruct H as [H _].
      apply N.ltb_lt in H. lia.
  - destruct (c <? 1114112)%N eqn:E5; [eexists; reflexivity|].
    exfalso. apply orb_true_iff in H. destruct H as [H|H].
    + apply N.ltb_lt in H. apply N.ltb_ge in E3. lia.
    + apply andb_true_iff in H. destruct H as [_ H]. congruence.
Qed.

Lemma forallb_scalar (s : pystr) :
  forallb is_scalar s = true -> Forall (fun c => is_scalar c = true) s.
Proof. rewrite forallb_forall, Forall_forall. auto. Qed.

Lemma utf8_encode_scalar (s : pystr) :
  Forall (fun c => is_scalar c = true) s -> exists b, utf8_encode s = Ok b.
Proof.
  induction 1 as [|c s Hc _ [bs IH]]; [eexists; reflexivity|].
  cbn [utf8_encode]. destruct (utf8_char_scalar c Hc) as [b ->].
  rewrite IH. eexists. reflexivity.
Qed.

Section Scalars.
Let ok (s : pystr) : Prop := Forall (fun c => is_scalar c = true) s.

Lemma ok_csv_field (s : pystr) : ok s -> ok (csv_field s).
Proof.
  intros H. unfold csv_field. destruct (existsb csv_special s); [|exact H].
  apply Forall_app. split; [repeat constructor|].
  apply Forall_app. split; [|repeat constructor].
  apply Forall_flat_map. rewrite Forall_forall. intros c Hc.
  unfold ok in H. rewrite Forall_forall in H. specialize (H c Hc).
  destruct (c =? 34)%N; repeat constructor; exact H.
Qed.

Lemma ok_join (fs : list pystr) :
  Forall ok fs -> ok (join (py ",") fs).
Proof.
  induction 1 as [|f fs Hf Hfs IH]; [constructor|].
  cbn [join]. destruct fs as [|g fs]; [exact Hf|].
  apply Forall_app. split; [exact Hf|].
  apply Forall_app. split; [repeat constructor | exact IH].
Qed.

Lemma ok_csv_line (fs : list pystr) : Forall ok fs -> ok (csv_line fs).
Proof.
  intros H. unfold csv_line. apply Forall_app. split; [|repeat constructor].
  apply ok_join. rewrite Forall_forall in *. intros f Hf.
  apply in_map_iff in Hf. destruct Hf as [g [<- Hg]].
  apply ok_csv_field. exact (H g Hg).
Qed.

Lemma ok_to_csv (df : DataFrame) :
  Forall (fun c => ok (label_text c)) (columns df) ->
  Forall (Forall encodable) (rows df) ->
  ok (to_csv df).
Proof.
  intros Hc Hr. unfold to_csv. apply Forall_app. split.
  - apply ok_csv_line. rewrite Forall_forall in *. intros f Hf.
    apply in_map_iff in Hf. destruct Hf as [c [<- Hin]]. exact (Hc c Hin).
  - apply Forall_flat_map. rewrite Forall_forall in *. intros r Hin.
    apply ok_csv_line. specialize (Hr r Hin). rewrite Forall_forall in *.
    intros f Hf. apply in_map_iff in Hf. destruct Hf as [v [<- Hv]].
    exact (Hr v Hv).
Qed.
End Scalars.

Lemma in_lstrip (U : UnicodeData) (s : pystr) (c : N) :
  In c (lstrip U s) -> In c s.
Proof.
  induction s as [|x s IH]; cbn [lstrip]; auto.
  destruct (isspace U x); auto. intros H. right. exact (IH H).
Qed.

Lemma in_strip (U : UnicodeData) (s : pystr) (c : N) :
  In c (strip U s) -> In c s.
Proof.
  unfold strip, rstrip. intros H. apply in_rev in H. apply in_lstrip in H.
  apply in_rev in H. apply in_lstrip in H. exact H.
Qed.

Lemma encodable_clean_cell (U : UnicodeData) (v : value) :
  encodable v -> encodable (clean_cell U v).
Proof.
  unfold encodable, clean_cell. cbn [cell_text str_of]. intros H.
  rewrite Forall_forall in *. intros c Hc. apply in_strip in Hc.
  apply H. destruct v; auto; destruct Hc.
Qed.

(** X19 (the export of proper text): when the cells of the selected sheet
    hold Unicode scalar values only -- no lone surrogate -- the page never
    ends with a [UnicodeEncodeError]. *)
Theorem export_never_fails_on_scalars (U : UnicodeData)
  (workbook : list (pystr * DataFrame)) (selected_country q : pystr)
  (raw : DataFrame) :
  dict_get str_eqb selected_country workbook = Some raw ->
  rectangular raw ->
  Forall (Forall encodable) (rows raw) ->
  page U workbook selected_country q <> Uncaught UnicodeEncodeError.
Proof.
  intros W R Enc H. unfold page in H.
  destruct workbook as [|sheet others]; [discriminate|].
  rewrite W in H. destruct (empty raw) eqn:E; [discriminate|].
  destruct (standardize_columns U (Some raw)) as [df|e0] eqn:S.
  2:{ injection H as ->.
      unfold standardize_columns, standardize_columns_with in S.
      rewrite E in S.
      pose proof (for_each_clean_raise U _ _ _ (fun c H => H) S).
      discriminate. }
  destruct (search U df (query_terms U q)) as [res|e1] eqn:Se.
  2:{ destruct (standardized_searchable U raw df E S) as [ND C].
      destruct (search_total U df (query_terms U q) ND C) as [res R'].
      congruence. }
  assert (Ok_res : Forall (fun c => is_scalar c = true) (to_csv res)).
  { destruct (standardize_success U COL_ALIASES CANONICAL raw df E R S)
      as [ND Edf].
    assert (Hdf : Forall (Forall encodable) (rows df)).
    { rewrite Edf. cbn [rows]. rewrite Forall_forall in *. intros r Hr.
      apply in_map_iff in Hr. destruct Hr as [r0 [<- Hr0]].
      apply Forall_app. split.
      - specialize (Enc r0 Hr0). rewrite Forall_forall in *. intros v Hv.
        apply in_map_iff in Hv. destruct Hv as [v0 [<- Hv0]].
        apply encodable_clean_cell. exact (Enc v0 Hv0).
      - rewrite Forall_forall. intros v Hv. apply repeat_spec in Hv.
        subst v. constructor. }
    apply ok_to_csv.
    - assert (Cr : columns res = map LStr DISPLAY_ORDER).
      { destruct (query_terms U q) as [|t ts] eqn:Q.
        - injection Se as <-. reflexivity.
        - destruct (search_terms U df res (t :: ts) ltac:(discriminate)
                      (standardize_columns_nodup U raw df E S) Se)
            as [_ [_ [_ [_ [Cr _]]]]].
          exact Cr. }
      rewrite Cr. rewrite Forall_forall. intros c Hc.
      apply in_map_iff in Hc. destruct Hc as [n [<- Hn]]. cbn [label_text].
      apply forallb_scalar. unfold DISPLAY_ORDER in Hn. simpl in Hn.
      repeat (destruct Hn as [<-|Hn]; [vm_compute; reflexivity|]).
      contradiction.
    - destruct (query_terms U q) as [|t ts] eqn:Q.
      + injection Se as <-. constructor.
      + destruct (search_terms U df res (t :: ts) ltac:(discriminate)
                    (standardize_columns_nodup U raw df E S) Se)
          as [ip [ps [_ [_ [_ Rw]]]]].
        rewrite Rw. rewrite Forall_forall in *. intros r Hr.
        apply in_map_iff in Hr. destruct Hr as [r0 [<- Hr0]].
        apply filter_In in Hr0. destruct Hr0 as [Hr0 _].
        specialize (Hdf r0 Hr0). rewrite Forall_forall in *.
        intros v Hv. apply in_map_iff in Hv. destruct Hv as [i [<- _]].
        destruct (nth_in_or_default i r0 VNaN) as [Hn|Hn].
        * exact (Hdf _ Hn).
        * rewrite Hn. constructor. }
  unfold download_of in H. destruct (negb (empty res)); [|discriminate].
  unfold encode_utf8_sig in H.
  destruct (utf8_encode_scalar (to_csv res) Ok_res) as [body Eb].
  rewrite Eb in H. discriminate.
Qed.

(** The sheet of the first scenario, asked for [malta]. *)
Lemma export_never_fails_on_scalars_witness :
  page ucd_es wb_argentina (py "Argentina") (py "malta")
  <> Uncaught UnicodeEncodeError.
Proof.
  apply (export_never_fails_on_scalars ucd_es wb_argentina (py "Argentina")
           (py "malta") df_argentina).
  - reflexivity.
  - repeat constructor.
  - repeat constructor; apply forallb_scalar; vm_compute; reflexivity.
Defined.

(** ** Queries of one word *)

Lemma split_from_word (sep : N -> bool) (acc s : pystr) :
  Forall (fun c => sep c = false) s ->
  split_from sep false acc s = [rev acc ++ s].
Proof.
  intros H. revert acc. induction H as [|c s Hc _ IH]; intros acc.
  - cbn [split_from]. rewrite app_nil_r. reflexivity.
  - cbn [split_from]. rewrite Hc, IH. cbn [rev]. rewrite <- app_assoc.
    reflexivity.
Qed.

(** X20 (one word): a query whose normal form is not empty and holds no
    separator gives that normal form as its only term, so a text field
    matches it exactly when its own normal form holds it. *)
Theorem tokenize_query_single_word (U : UnicodeData) (q : pystr) :
  normalize_text U (VStr q) <> [] ->
  Forall (fun c => is_separator U c = false) (normalize_text U (VStr q)) ->
  tokenize_query U q = [normalize_text U (VStr q)] /\
  forall f : option pystr,
    match_row U (field_value f) (tokenize_query U q) = true <->
    exists l r,
      normalize_text U (field_value f) = l ++ normalize_text U (VStr q) ++ r.
Proof.
  intros Hn Hs.
  assert (T : tokenize_query U q = [normalize_text U (VStr q)]).
  { unfold tokenize_query, re_split.
    rewrite (split_from_word (is_separator U) [] _ Hs). cbn [rev app filter].
    destruct (normalize_text U (VStr q)); [congruence | reflexivity]. }
  split; [exact T|]. intros f. rewrite T, match_row_field.
  cbn [forallb]. rewrite andb_true_r. apply contains_spec.
Qed.

(** The query [MALTA] has the single term [malta]. *)
Lemma tokenize_query_single_word_witness :
  tokenize_query ucd_es (py "MALTA") = [py "malta"].
Proof.
  apply (tokenize_query_single_word ucd_es (py "MALTA")).
  - vm_compute. discriminate.
  - vm_compute. repeat constructor.
Defined.
